(** * Workflow analytics pipeline of [app.py]

    A shallow embedding of the data pipeline of the dashboard script
    [app.py]: the cleaning and feature block (lines 29-42), the sidebar
    filter (lines 67-71), the delay KPI (lines 85-86), the daily trend table
    (lines 115-116), the workload ranking (lines 128-133) and the
    recommendation function [generate_insights] (lines 142-160).

    Conventions of the embedding.
    - A Python [str] is the list of its Unicode code points ([pystr]).
    - A numeric cell is an exact rational or NaN ([option Q], [None] = NaN);
      the rationals stand for the float64 values of the columns.  A cell of
      a duration column of the file may also hold text ([csv_cell]).
    - The label columns (department, priority, employee) hold strings and
      the time columns hold parsed timestamps.
    - A DataFrame is the list of its rows, in index order; a Series produced
      by a group-by is the association list of its labels and values, in the
      order of its index.
    - A Python exception is the [Raise] case of the [result] type. *)

From Stdlib Require Import List Bool Arith ZArith NArith QArith Lia.
From Stdlib Require Import String Ascii Permutation Sorting.Sorted.
Import ListNotations.

Set Implicit Arguments.

(* ================================================================== *)
(** ** Python strings *)

Module PyStr.

Definition pystr := list N.

(** An ASCII literal of the source as a sequence of code points. *)
Definition lit (s : string) : pystr :=
  List.map N_of_ascii (list_ascii_of_string s).

Fixpoint compare (a b : pystr) : comparison :=
  match a, b with
  | [], [] => Eq
  | [], _ :: _ => Lt
  | _ :: _, [] => Gt
  | x :: a', y :: b' =>
      match N.compare x y with
      | Eq => compare a' b'
      | c => c
      end
  end.

(** [==] on [str]. *)
Definition eqb (a b : pystr) : bool :=
  match compare a b with Eq => true | _ => false end.

(** [<=] on [str]: lexicographic by code point. *)
Definition leb (a b : pystr) : bool :=
  match compare a b with Gt => false | _ => true end.

(** [x in values] for a list of strings. *)
Definition mem (x : pystr) (values : list pystr) : bool :=
  existsb (eqb x) values.

End PyStr.

Import PyStr.

(* ================================================================== *)
(** ** Exceptions *)

Inductive exn : Type :=
| ValueError (msg : string)
| TypeError (msg : string).

Inductive result (A : Type) : Type :=
| Ok (a : A)
| Raise (e : exn).

Arguments Ok {A} a.
Arguments Raise {A} e.

Definition bind {A B : Type} (m : result A) (k : A -> result B) : result B :=
  match m with
  | Ok a => k a
  | Raise e => Raise e
  end.

Notation "x <- m ;; k" := (bind m (fun x => k))
  (at level 61, m at next level, right associativity).

(* ================================================================== *)
(** ** Numeric cells *)

Module Cell.

Local Open Scope Q_scope.

(** A float cell: [None] is NaN. *)
Definition num := option Q.

(** [a - b] on cells: NaN when either operand is NaN. *)
Definition sub (a b : num) : num :=
  match a, b with
  | Some x, Some y => Some (x - y)
  | _, _ => None
  end.

Definition Qltb (x y : Q) : bool := negb (Qle_bool y x).

(** [a > c] on a cell: every comparison with NaN is [False]. *)
Definition gt (a : num) (c : Q) : bool :=
  match a with
  | Some x => Qltb c x
  | None => false
  end.

(** The values of a column that are not NaN. *)
Fixpoint dropna (l : list num) : list Q :=
  match l with
  | [] => []
  | Some x :: l' => x :: dropna l'
  | None :: l' => dropna l'
  end.

Definition Qsum (l : list Q) : Q := fold_right Qplus 0 l.

(** [Series.sum()] (skipna): the sum of the present values, 0 when none. *)
Definition sum (l : list num) : Q := Qsum (dropna l).

(** [Series.mean()] (skipna): NaN when no value is present. *)
Definition mean (l : list num) : num :=
  match dropna l with
  | [] => None
  | x :: xs => Some (Qsum (x :: xs) / inject_Z (Z.of_nat (List.length (x :: xs))))
  end.

End Cell.

(* ================================================================== *)
(** ** Regular expression [\d+] *)

Module Re.

(** The code points of Unicode category Nd, as inclusive ranges: the
    characters that [\d] matches in a [str] pattern. *)
Definition Nd_ranges : list (N * N) :=
  [ (48, 57); (1632, 1641); (1776, 1785); (1984, 1993); (2406, 2415);
    (2534, 2543); (2662, 2671); (2790, 2799); (2918, 2927); (3046, 3055);
    (3174, 3183); (3302, 3311); (3430, 3439); (3558, 3567); (3664, 3673);
    (3792, 3801); (3872, 3881); (4160, 4169); (4240, 4249); (6112, 6121);
    (6160, 6169); (6470, 6479); (6608, 6617); (6784, 6793); (6800, 6809);
    (6992, 7001); (7088, 7097); (7232, 7241); (7248, 7257); (42528, 42537);
    (43216, 43225); (43264, 43273); (43472, 43481); (43504, 43513);
    (43600, 43609); (44016, 44025); (65296, 65305); (66720, 66729);
    (68912, 68921); (69734, 69743); (69872, 69881); (69942, 69951);
    (70096, 70105); (70384, 70393); (70736, 70745); (70864, 70873);
    (71248, 71257); (71360, 71369); (71472, 71481); (71904, 71913);
    (72016, 72025); (72784, 72793); (73040, 73049); (73120, 73129);
    (92768, 92777); (92864, 92873); (93008, 93017); (120782, 120831);
    (123200, 123209); (123632, 123641); (125264, 125273);
    (130032, 130041) ]%N.

(** [\d] *)
Definition is_decimal (c : N) : bool :=
  existsb (fun r => (fst r <=? c)%N && (c <=? snd r)%N) Nd_ranges.

(** The ASCII digits [0-9]. *)
Definition is_ascii_digit (c : N) : bool := ((48 <=? c) && (c <=? 57))%N.

Section Findall.

Variable digit : N -> bool.

(** Close the match in progress ([run] holds it reversed). *)
Definition flush (run : pystr) : list pystr :=
  match run with
  | [] => []
  | _ :: _ => [rev run]
  end.

(** Left-to-right scan for the non-overlapping matches of [digit+]:
    a match extends as long as digits follow (the quantifier is greedy). *)
Fixpoint scan (s : pystr) (run : pystr) : list pystr :=
  match s with
  | [] => flush run
  | c :: s' =>
      if digit c then scan s' (c :: run)
      else flush run ++ scan s' []
  end.

Definition findall_with (s : pystr) : list pystr := scan s [].

(** The longest prefix made of digits. *)
Fixpoint take_digits (s : pystr) : pystr :=
  match s with
  | [] => []
  | c :: s' => if digit c then c :: take_digits s' else []
  end.

(** The first maximal run of digits met from the left, if there is one. *)
Fixpoint first_run (s : pystr) : option pystr :=
  match s with
  | [] => None
  | c :: s' => if digit c then Some (c :: take_digits s') else first_run s'
  end.

End Findall.

(** [re.findall(r'\d+', x)] *)
Definition findall_digits (x : pystr) : list pystr := findall_with is_decimal x.

End Re.

(* ================================================================== *)
(** ** Records *)

(** A parsed timestamp: the calendar day (as a day number) and the time of
    day.  Lines 29-30 parse the two time columns with [pd.to_datetime]; the
    rows below are the rows after that parse. *)
Record Timestamp : Type := mkTimestamp {
  ts_date : Z;
  ts_time_of_day : N
}.

(** A cell of a duration column of the CSV file: a number, a missing value
    (an empty cell or one of the tokens that [read_csv] reads as NaN), or
    any other text. *)
Inductive csv_cell : Type :=
| CNum (q : Q)
| CMissing
| CText (s : pystr).

(** A row of the table as loaded.  The label columns hold strings, the
    approval column may be missing, the cost may be NaN. *)
Record RawRow : Type := mkRawRow {
  raw_Start_Time : Timestamp;
  raw_End_Time : Timestamp;
  raw_Department : pystr;
  raw_Priority_Level : pystr;
  raw_Assigned_Employee : pystr;
  raw_Approval_Level : option pystr;
  raw_Estimated_Duration : csv_cell;
  raw_Actual_Duration : csv_cell;
  raw_Cost_Per_Task : Cell.num
}.

(** A row of [df] after the cleaning and feature block. *)
Record Row : Type := mkRow {
  Start_Time : Timestamp;
  End_Time : Timestamp;
  Department : pystr;
  Priority_Level : pystr;
  Assigned_Employee : pystr;
  Approval_Level : option pystr;
  Estimated_Duration : Cell.num;
  Actual_Duration : Cell.num;
  Cost_Per_Task : Cell.num;
  Employee_ID_Number : option pystr;
  Duration_Difference : Cell.num;
  Delay_Flag : pystr
}.

Definition DataFrame := list Row.

(* ================================================================== *)
(** ** Data cleaning and transformation (lines 32-42) *)

Definition Delayed : pystr := lit "Delayed".
Definition On_Time : pystr := lit "On-Time".
Definition Not_Required : pystr := lit "Not Required".
Definition High : pystr := lit "High".

(** [df.fillna({"Approval_Level": "Not Required"})] on one cell. *)
Definition fillna_approval (a : option pystr) : option pystr :=
  match a with
  | Some v => Some v
  | None => Some Not_Required
  end.

(** [lambda x: re.findall(r'\d+', x)[0] if re.findall(r'\d+', x) else None] *)
Definition extract_employee_id (x : pystr) : option pystr :=
  match Re.findall_digits x with
  | [] => None
  | m :: _ => Some m
  end.

(** [np.where(cond, "Delayed", "On-Time")] on one element. *)
Definition np_where (cond : bool) (a b : pystr) : pystr :=
  if cond then a else b.

Definition delay_flag_of (diff : Cell.num) : pystr :=
  np_where (Cell.gt diff 0) Delayed On_Time.

Definition is_text (c : csv_cell) : bool :=
  match c with CText _ => true | _ => false end.

(** The value of a cell of a float64 column. *)
Definition cell_num (c : csv_cell) : Cell.num :=
  match c with CNum q => Some q | _ => None end.

(** [read_csv] gives a column the dtype float64 when each of its cells is a
    number or missing, and the dtype object, its cells strings, as soon as
    one cell is some other text. *)
Definition is_float_column (col : list csv_cell) : bool :=
  negb (existsb is_text col).

Definition enrich_row (r : RawRow) : Row :=
  let actual := cell_num (raw_Actual_Duration r) in
  let estimated := cell_num (raw_Estimated_Duration r) in
  let diff := Cell.sub actual estimated in
  {| Start_Time := raw_Start_Time r;
     End_Time := raw_End_Time r;
     Department := raw_Department r;
     Priority_Level := raw_Priority_Level r;
     Assigned_Employee := raw_Assigned_Employee r;
     Approval_Level := fillna_approval (raw_Approval_Level r);
     Estimated_Duration := estimated;
     Actual_Duration := actual;
     Cost_Per_Task := raw_Cost_Per_Task r;
     Employee_ID_Number := extract_employee_id (raw_Assigned_Employee r);
     Duration_Difference := diff;
     Delay_Flag := delay_flag_of diff |}.

(** The whole block.  Every statement assigns a column computed row by
    row; the subtraction of line 41 raises [TypeError] when one of the two
    duration columns holds strings. *)
Definition enrich (raw : list RawRow) : result DataFrame :=
  if is_float_column (List.map raw_Actual_Duration raw)
     && is_float_column (List.map raw_Estimated_Duration raw)
  then Ok (List.map enrich_row raw)
  else Raise (TypeError "unsupported operand type(s) for -").

(* ================================================================== *)
(** ** Series and group-by primitives *)

Section GroupKeys.

Variable K : Type.
Variable cmp : K -> K -> comparison.

(** Insert a key in an increasing list without duplicates. *)
Fixpoint insert_key (k : K) (l : list K) : list K :=
  match l with
  | [] => [k]
  | x :: l' =>
      match cmp k x with
      | Lt => k :: l
      | Eq => l
      | Gt => x :: insert_key k l'
      end
  end.

(** The distinct keys of a column in increasing order: the index of a
    group-by result ([sort=True] is the default). *)
Definition sorted_keys (col : list K) : list K := fold_right insert_key [] col.

End GroupKeys.

(** [Series.unique()]: the distinct values in order of first appearance. *)
Fixpoint unique_from (seen col : list pystr) : list pystr :=
  match col with
  | [] => []
  | x :: col' =>
      if mem x seen then unique_from seen col'
      else x :: unique_from (x :: seen) col'
  end.

Definition unique (col : list pystr) : list pystr := unique_from [] col.

(** The rows of one group. *)
Definition group_rows (key : Row -> pystr) (data : DataFrame) (k : pystr)
  : DataFrame :=
  filter (fun r => PyStr.eqb (key r) k) data.

(** [data.groupby(key)[col].agg()]: one entry per distinct key, keys
    increasing. *)
Definition groupby_agg (V : Type) (key : Row -> pystr) (agg : DataFrame -> V)
    (data : DataFrame) : list (pystr * V) :=
  List.map (fun k => (k, agg (group_rows key data k)))
           (sorted_keys PyStr.compare (List.map key data)).

(** The running first maximum of a Series, NaN entries skipped. *)
Fixpoint argmax_from (best : option (pystr * Q)) (s : list (pystr * Cell.num))
  : option (pystr * Q) :=
  match s with
  | [] => best
  | (_, None) :: s' => argmax_from best s'
  | (k, Some v) :: s' =>
      match best with
      | None => argmax_from (Some (k, v)) s'
      | Some (_, b) =>
          if Cell.Qltb b v then argmax_from (Some (k, v)) s'
          else argmax_from best s'
      end
  end.

(** [Series.idxmax()]: the label of the first occurrence of the maximum.
    An empty Series raises [ValueError]; a Series whose values are all NaN
    yields the NaN label ([None]), the behaviour of pandas before 3.0. *)
Definition idxmax (s : list (pystr * Cell.num)) : result (option pystr) :=
  match s with
  | [] => Raise (ValueError "attempt to get argmax of an empty sequence")
  | _ :: _ => Ok (option_map fst (argmax_from None s))
  end.

(** A label inside an f-string. *)
Definition format_label (l : option pystr) : pystr :=
  match l with
  | Some s => s
  | None => lit "nan"
  end.

(* ================================================================== *)
(** ** Sidebar filter (lines 49-71) *)

(** [col.isin(values)] *)
Definition isin (col values : list pystr) : list bool :=
  List.map (fun v => mem v values) col.

(** [a & b] on boolean Series over the same index. *)
Fixpoint mask_and (a b : list bool) : list bool :=
  match a, b with
  | x :: a', y :: b' => (x && y) :: mask_and a' b'
  | _, _ => []
  end.

(** [df[mask]] *)
Fixpoint boolean_index (df : DataFrame) (mask : list bool) : DataFrame :=
  match df, mask with
  | r :: df', m :: mask' =>
      if m then r :: boolean_index df' mask' else boolean_index df' mask'
  | _, _ => []
  end.

Definition filtered_df (df : DataFrame)
    (department_filter priority_filter delay_filter : list pystr) : DataFrame :=
  boolean_index df
    (mask_and
       (mask_and (isin (List.map Department df) department_filter)
                 (isin (List.map Priority_Level df) priority_filter))
       (isin (List.map Delay_Flag df) delay_filter)).

(** The default selection of a multiselect: [df[col].unique()]. *)
Definition default_selection (col : Row -> pystr) (df : DataFrame)
  : list pystr :=
  unique (List.map col df).

(* ================================================================== *)
(** ** Delay KPI (lines 85-86) *)

Definition count_value (col : list pystr) (v : pystr) : nat :=
  List.length (filter (PyStr.eqb v) col).

Definition Qnat (n : nat) : Q := inject_Z (Z.of_nat n).

(** [col.value_counts(normalize=True)]: each distinct value with its
    relative frequency.  pandas orders the entries by decreasing frequency;
    the only use below is a lookup by label, which does not depend on the
    order, so the entries are kept in order of first appearance. *)
Definition value_counts_normalize (col : list pystr) : list (pystr * Q) :=
  List.map (fun v => (v, (Qnat (count_value col v) / Qnat (List.length col))%Q))
           (unique col).

(** [Series.get(label, default)] *)
Fixpoint series_get (V : Type) (s : list (pystr * V)) (label : pystr)
    (default : V) : V :=
  match s with
  | [] => default
  | (k, v) :: s' => if PyStr.eqb k label then v else series_get s' label default
  end.

(** [filtered_df['Delay_Flag'].value_counts(normalize=True).get('Delayed',0)*100] *)
Definition delay_percentage (data : DataFrame) : Q :=
  (series_get (value_counts_normalize (List.map Delay_Flag data)) Delayed 0
   * 100)%Q.

(** Round half to even to an integer. *)
Definition rint (x : Q) : Z :=
  let n := Qnum x in
  let d := Zpos (Qden x) in
  let fl := (n / d)%Z in
  match (2 * (n mod d) ?= d)%Z with
  | Lt => fl
  | Gt => (fl + 1)%Z
  | Eq => if Z.even fl then fl else (fl + 1)%Z
  end.

(** [round(x, 2)] *)
Definition round2 (x : Q) : Q := (inject_Z (rint (x * 100)) / 100)%Q.

(** The number shown by the "Delay %" metric. *)
Definition delay_kpi (data : DataFrame) : Q := round2 (delay_percentage data).

(* ================================================================== *)
(** ** Daily delay trend (lines 115-116) *)

(** [Start_Time.dt.date] *)
Definition date_of (r : Row) : Z := ts_date (Start_Time r).

Definition rows_on (data : DataFrame) (d : Z) : DataFrame :=
  filter (fun r => Z.eqb (date_of r) d) data.

(** [groupby(date)["Delay_Flag"].value_counts()]: a Series indexed by
    (date, flag) that holds the number of rows of each pair that occurs. *)
Definition grouped_value_counts (data : DataFrame) : list ((Z * pystr) * nat) :=
  flat_map
    (fun d =>
       let flags := List.map Delay_Flag (rows_on data d) in
       List.map (fun f => ((d, f), count_value flags f)) (unique flags))
    (sorted_keys Z.compare (List.map date_of data)).

Fixpoint pair_get (s : list ((Z * pystr) * nat)) (d : Z) (f : pystr)
  : option nat :=
  match s with
  | [] => None
  | ((d', f'), n) :: s' =>
      if Z.eqb d' d && PyStr.eqb f' f then Some n else pair_get s' d f
  end.

(** [.unstack()]: one row per first-level label, one column per second-level
    label that occurs in the index; a pair that is not in the index is NaN. *)
Definition unstack (s : list ((Z * pystr) * nat))
  : list (Z * list (pystr * option nat)) :=
  let rows := sorted_keys Z.compare (List.map (fun e => fst (fst e)) s) in
  let cols := sorted_keys PyStr.compare (List.map (fun e => snd (fst e)) s) in
  List.map (fun d => (d, List.map (fun f => (f, pair_get s d f)) cols)) rows.

(** [.fillna(0)] *)
Definition fillna0 (t : list (Z * list (pystr * option nat)))
  : list (Z * list (pystr * nat)) :=
  List.map
    (fun row =>
       (fst row,
        List.map (fun c => (fst c, match snd c with Some n => n | None => 0%nat end))
                 (snd row)))
    t.

Definition trend_df (data : DataFrame) : list (Z * list (pystr * nat)) :=
  fillna0 (unstack (grouped_value_counts data)).

(** Lookup of a column in a row of the trend table: [None] when the table
    has no such column. *)
Fixpoint column_get (row : list (pystr * nat)) (f : pystr) : option nat :=
  match row with
  | [] => None
  | (k, n) :: row' => if PyStr.eqb k f then Some n else column_get row' f
  end.

(** The number of rows of [data] with the given date and flag. *)
Definition count_on (data : DataFrame) (d : Z) (f : pystr) : nat :=
  List.length
    (filter (fun r => Z.eqb (date_of r) d && PyStr.eqb (Delay_Flag r) f) data).

(* ================================================================== *)
(** ** Workload ranking (lines 128-133) *)

(** [filtered_df.groupby("Assigned_Employee")["Actual_Duration"].sum()] *)
Definition workload_df (data : DataFrame) : list (pystr * Q) :=
  groupby_agg Assigned_Employee
              (fun g => Cell.sum (List.map Actual_Duration g)) data.

Definition no_row : pystr * Q := ([], 0%Q).

Section SortValues.

(** [numpy.argsort(kind="quicksort")], the default sort of [sort_values].
    The algorithm is not stable: all that is known of it is [argsort_spec]
    below. *)
Variable argsort : list Q -> list nat.

(** pandas' [nargsort] with [ascending=False]: the values are reversed,
    sorted increasingly, and the resulting indexer is reversed. *)
Definition nargsort_desc (items : list Q) : list nat :=
  let non_nans := rev items in
  let non_nan_idx := rev (seq 0 (List.length items)) in
  let indexer := List.map (fun i => nth i non_nan_idx 0%nat) (argsort non_nans) in
  rev indexer.

(** [frame.sort_values(column, ascending=False)] on a two-column frame. *)
Definition sort_values_desc (frame : list (pystr * Q)) : list (pystr * Q) :=
  List.map (fun i => nth i frame no_row) (nargsort_desc (List.map snd frame)).

(** [workload_df.sort_values("Actual_Duration", ascending=False).head(top_n)] *)
Definition workload_by_employee (top_n : nat) (data : DataFrame)
  : list (pystr * Q) :=
  firstn top_n (sort_values_desc (workload_df data)).

(** The rows of the bar chart: the source passes [head(10)]. *)
Definition fig4_rows (data : DataFrame) : list (pystr * Q) :=
  workload_by_employee 10 data.

End SortValues.

(** What an argsort guarantees: a permutation of the positions that lists
    the values in non-decreasing order. *)
Definition argsort_spec (argsort : list Q -> list nat) : Prop :=
  forall v : list Q,
    Permutation (argsort v) (seq 0 (List.length v)) /\
    Sorted Qle (List.map (fun i => nth i v 0%Q) (argsort v)).

(** Two sorts that meet [argsort_spec]: insertion sorts of the positions
    that place a position before the first one whose value is not smaller
    ([argsort_stable]: equal values keep their order) or before the first one
    whose value is greater ([argsort_swapping]: equal values end up in reverse
    order). *)
Section InsertionArgsort.

Variable before : Q -> Q -> bool.
Variable v : list Q.

Fixpoint insert_pos (i : nat) (l : list nat) : list nat :=
  match l with
  | [] => [i]
  | j :: l' =>
      if before (nth i v 0%Q) (nth j v 0%Q) then i :: l
      else j :: insert_pos i l'
  end.

Definition insertion_argsort : list nat :=
  fold_right insert_pos [] (seq 0 (List.length v)).

End InsertionArgsort.

Definition argsort_stable (v : list Q) : list nat :=
  insertion_argsort Qle_bool v.

Definition argsort_swapping (v : list Q) : list nat :=
  insertion_argsort Cell.Qltb v.

(* ================================================================== *)
(** ** Recommendation engine (lines 142-160) *)

Definition msg_high_delay : pystr :=
  9888%N :: lit " High delay rate detected. Consider redistributing workload or revising time estimation models.".

Definition msg_high_cost (high_cost_dept : option pystr) : pystr :=
  128176%N :: lit " " ++ format_label high_cost_dept
    ++ lit " department shows highest average cost per task. Audit cost drivers.".

Definition msg_overloaded (overloaded_emp : option pystr) : pystr :=
  [128104%N; 8205%N; 128188%N] ++ lit " " ++ format_label overloaded_emp
    ++ lit " appears overloaded. Workload balancing recommended.".

Definition msg_high_priority : pystr :=
  128680%N :: lit " High priority tasks are being delayed. Escalation policy review suggested.".

(** [(data["Delay_Flag"] == "Delayed").mean()]: NaN on an empty frame. *)
Definition delay_rate (data : DataFrame) : Cell.num :=
  match data with
  | [] => None
  | _ :: _ =>
      Some (Qnat (count_value (List.map Delay_Flag data) Delayed)
            / Qnat (List.length data))%Q
  end.

(** [data.groupby("Department")["Cost_Per_Task"].mean()] *)
Definition dept_mean_cost (data : DataFrame) : list (pystr * Cell.num) :=
  groupby_agg Department (fun g => Cell.mean (List.map Cost_Per_Task g)) data.

(** [data.groupby("Assigned_Employee")["Actual_Duration"].sum()] *)
Definition emp_total_duration (data : DataFrame) : list (pystr * Cell.num) :=
  groupby_agg Assigned_Employee
              (fun g => Some (Cell.sum (List.map Actual_Duration g))) data.

Definition high_priority_delay (data : DataFrame) : DataFrame :=
  filter (fun r => PyStr.eqb (Priority_Level r) High
                   && PyStr.eqb (Delay_Flag r) Delayed) data.

Definition generate_insights (data : DataFrame) : result (list pystr) :=
  let insights := [] in
  let insights :=
    if Cell.gt (delay_rate data) (3 # 10)
    then insights ++ [msg_high_delay] else insights in
  high_cost_dept <- idxmax (dept_mean_cost data) ;;
  let insights := insights ++ [msg_high_cost high_cost_dept] in
  overloaded_emp <- idxmax (emp_total_duration data) ;;
  let insights := insights ++ [msg_overloaded overloaded_emp] in
  let insights :=
    if (0 <? List.length (high_priority_delay data))%nat
    then insights ++ [msg_high_priority] else insights in
  Ok insights.

(** Which rule wrote a string: the four messages start with four different
    characters. *)
Definition is_rule1 (s : pystr) : bool :=
  match s with c :: _ => N.eqb c 9888 | [] => false end.
Definition is_rule2 (s : pystr) : bool :=
  match s with c :: _ => N.eqb c 128176 | [] => false end.
Definition is_rule3 (s : pystr) : bool :=
  match s with c :: _ => N.eqb c 128104 | [] => false end.
Definition is_rule4 (s : pystr) : bool :=
  match s with c :: _ => N.eqb c 128680 | [] => false end.

Definition count_rule (p : pystr -> bool) (insights : list pystr) : nat :=
  List.length (filter p insights).

(* ================================================================== *)
(** ** Sample records *)

Definition num_cell (x : Cell.num) : csv_cell :=
  match x with Some q => CNum q | None => CMissing end.

Definition sample_raw (day : Z) (dept prio emp : string)
    (est act cost : Cell.num) : RawRow :=
  {| raw_Start_Time := mkTimestamp day 0;
     raw_End_Time := mkTimestamp day 0;
     raw_Department := lit dept;
     raw_Priority_Level := lit prio;
     raw_Assigned_Employee := lit emp;
     raw_Approval_Level := None;
     raw_Estimated_Duration := num_cell est;
     raw_Actual_Duration := num_cell act;
     raw_Cost_Per_Task := cost |}.

Definition sample_row (day : Z) (dept prio emp : string)
    (est act cost : Cell.num) : Row :=
  enrich_row (sample_raw day dept prio emp est act cost).

(** The rule 2 example: one task of "Ops" at cost 10, one of "IT" at 50. *)
Definition ops_it : DataFrame :=
  [ sample_row 1 "Ops" "Low" "Asha_7" (Some 10%Q) (Some 10%Q) (Some 10%Q);
    sample_row 1 "IT" "Low" "Ravi_3" (Some 10%Q) (Some 10%Q) (Some 50%Q) ].

(** The workload example: totals A:30, B:50, C:10. *)
Definition abc_30_50_10 : DataFrame :=
  [ sample_row 1 "Ops" "Low" "A" (Some 10%Q) (Some 30%Q) (Some 1%Q);
    sample_row 1 "Ops" "Low" "B" (Some 10%Q) (Some 20%Q) (Some 1%Q);
    sample_row 2 "Ops" "Low" "C" (Some 10%Q) (Some 10%Q) (Some 1%Q);
    sample_row 2 "Ops" "Low" "B" (Some 10%Q) (Some 30%Q) (Some 1%Q) ].

(** Two employees with the same total. *)
Definition tie_30_30 : DataFrame :=
  [ sample_row 1 "Ops" "Low" "A" (Some 10%Q) (Some 30%Q) (Some 1%Q);
    sample_row 1 "Ops" "Low" "B" (Some 10%Q) (Some 30%Q) (Some 1%Q) ].

(** One task that is on time. *)
Definition one_on_time : DataFrame :=
  [ sample_row 1 "Ops" "Low" "Asha_7" (Some 10%Q) (Some 10%Q) (Some 1%Q) ].

(** A row whose actual duration is the text "15 min". *)
Definition text_duration_row : RawRow :=
  {| raw_Start_Time := mkTimestamp 1 0;
     raw_End_Time := mkTimestamp 1 0;
     raw_Department := lit "Ops";
     raw_Priority_Level := lit "High";
     raw_Assigned_Employee := lit "Asha_7";
     raw_Approval_Level := None;
     raw_Estimated_Duration := CNum 10;
     raw_Actual_Duration := CText (lit "15 min");
     raw_Cost_Per_Task := Some 100%Q |}.

(** The end-to-end example: "Asha_7", estimated 10, actual 15. *)
Definition asha_row : RawRow :=
  sample_raw 1 "Ops" "High" "Asha_7" (Some 10%Q) (Some 15%Q) (Some 100%Q).

(** "Ali", two ARABIC-INDIC digits (U+0664, U+0662), "_7". *)
Definition ali_42_7 : pystr := lit "Ali" ++ [1636%N; 1634%N] ++ lit "_7".

(* ================================================================== *)
(** ** The other KPIs (lines 80-84) *)

(** [len(filtered_df)] *)
Definition total_tasks (data : DataFrame) : nat := List.length data.

(** [filtered_df["Actual_Duration"].mean()] *)
Definition mean_actual_duration (data : DataFrame) : Cell.num :=
  Cell.mean (List.map Actual_Duration data).

(** [round(x, 2)] on a cell: NaN stays NaN. *)
Definition round2_cell (x : Cell.num) : Cell.num := option_map round2 x.

(** The number shown by the "Avg Actual Duration" metric. *)
Definition avg_actual_duration_kpi (data : DataFrame) : Cell.num :=
  round2_cell (mean_actual_duration data).

(** [filtered_df['Cost_Per_Task'].sum()] *)
Definition total_cost (data : DataFrame) : Q :=
  Cell.sum (List.map Cost_Per_Task data).

(** The number shown by the "Total Cost" metric. *)
Definition total_cost_kpi (data : DataFrame) : Q := round2 (total_cost data).

(* ================================================================== *)
(** ** Vocabulary of the statements *)

(** The row-wise reading of the three masks. *)
Definition row_selected (ds ps fs : list pystr) (r : Row) : bool :=
  mem (Department r) ds && mem (Priority_Level r) ps && mem (Delay_Flag r) fs.

(** A subsequence: what is left of a list after some elements are
    removed, the others keeping their order. *)
Inductive subseq (A : Type) : list A -> list A -> Prop :=
| subseq_nil : subseq [] []
| subseq_skip x s l : subseq s l -> subseq s (x :: l)
| subseq_keep x s l : subseq s l -> subseq (x :: s) (x :: l).

(** The proportion of rows flagged "Delayed", as a percentage. *)
Definition delayed_share (data : DataFrame) : Q :=
  (100 * Qnat (count_value (List.map Delay_Flag data) Delayed)
   / Qnat (List.length data))%Q.

(** The mean cost of the tasks of one department (NaN when none of them
    has a cost). *)
Definition dept_mean (data : DataFrame) (d : pystr) : Cell.num :=
  Cell.mean (List.map Cost_Per_Task (group_rows Department data d)).

(** The summed actual duration of the tasks of one employee. *)
Definition emp_total (data : DataFrame) (e : pystr) : Q :=
  Cell.sum (List.map Actual_Duration (group_rows Assigned_Employee data e)).

(** A missing cell read as 0. *)
Definition fill0 (c : option nat) : nat :=
  match c with Some n => n | None => 0%nat end.

(** The order of the ranking: a row comes before the rows whose total is
    not greater. *)
Definition ranks_before (a b : pystr * Q) : Prop := (snd b <= snd a)%Q.

(* ================================================================== *)
(** * Properties *)

(** ** Strings: comparison and membership *)

Lemma compare_eq_iff (a b : pystr) : PyStr.compare a b = Eq <-> a = b.
Proof.
  revert b; induction a as [|x a IH]; intros [|y b]; simpl;
    try (split; [discriminate | discriminate]); try tauto.
  destruct (N.compare x y) eqn:E.
  - apply N.compare_eq_iff in E; subst y. rewrite IH.
    split; [intros ->; reflexivity | intros H; inversion H; reflexivity].
  - split; [discriminate | intros H; inversion H; subst].
    rewrite N.compare_refl in E; discriminate.
  - split; [discriminate | intros H; inversion H; subst].
    rewrite N.compare_refl in E; discriminate.
Qed.

Lemma compare_refl (a : pystr) : PyStr.compare a a = Eq.
Proof. now apply compare_eq_iff. Qed.

Lemma compare_antisym (a b : pystr) :
  PyStr.compare b a = CompOpp (PyStr.compare a b).
Proof.
  revert b; induction a as [|x a IH]; intros [|y b]; simpl; try reflexivity.
  rewrite (N.compare_antisym x y).
  destruct (N.compare x y); simpl; auto.
Qed.

Lemma compare_lt_trans (a b c : pystr) :
  PyStr.compare a b = Lt -> PyStr.compare b c = Lt -> PyStr.compare a c = Lt.
Proof.
  revert b c; induction a as [|x a IH]; intros [|y b] [|z c]; simpl;
    try discriminate; try reflexivity.
  destruct (N.compare x y) eqn:Exy; try discriminate.
  - apply N.compare_eq_iff in Exy; subst y.
    destruct (N.compare x z); try discriminate; auto.
    apply IH.
  - intros _. destruct (N.compare y z) eqn:Eyz; try discriminate.
    + apply N.compare_eq_iff in Eyz; subst z. now rewrite Exy.
    + intros _. rewrite N.compare_lt_iff in Exy, Eyz.
      assert (H : (x < z)%N) by lia.
      apply N.compare_lt_iff in H. now rewrite H.
Qed.

Lemma eqb_eq (a b : pystr) : PyStr.eqb a b = true <-> a = b.
Proof.
  unfold PyStr.eqb. rewrite <- compare_eq_iff.
  destruct (PyStr.compare a b); split; congruence.
Qed.

Lemma eqb_refl (a : pystr) : PyStr.eqb a a = true.
Proof. now apply eqb_eq. Qed.

Lemma eqb_neq (a b : pystr) : PyStr.eqb a b = false <-> a <> b.
Proof.
  rewrite <- eqb_eq. destruct (PyStr.eqb a b); split; congruence.
Qed.

Lemma eqb_sym (a b : pystr) : PyStr.eqb a b = PyStr.eqb b a.
Proof.
  destruct (PyStr.eqb a b) eqn:E, (PyStr.eqb b a) eqn:F; auto.
  - apply eqb_eq in E. apply eqb_neq in F. congruence.
  - apply eqb_eq in F. apply eqb_neq in E. congruence.
Qed.

Lemma mem_In (x : pystr) (l : list pystr) : mem x l = true <-> In x l.
Proof.
  unfold mem. rewrite existsb_exists. split.
  - intros (y & Hy & E). apply eqb_eq in E. now subst.
  - intros H. exists x. split; [assumption | apply eqb_refl].
Qed.

Lemma mem_nil (x : pystr) : mem x [] = false.
Proof. reflexivity. Qed.

Lemma unique_from_In (col seen : list pystr) (x : pystr) :
  In x (unique_from seen col) <-> In x col /\ ~ In x seen.
Proof.
  revert seen; induction col as [|y col IH]; intros seen; simpl.
  - tauto.
  - destruct (mem y seen) eqn:M.
    + apply mem_In in M. rewrite IH. split.
      * tauto.
      * intros [[->|H] N]; [contradiction | tauto].
    + assert (Hy : ~ In y seen).
      { intros H. apply mem_In in H. congruence. }
      simpl. rewrite IH. simpl. split.
      * intros [->| [H N]]; [tauto |]. split; [tauto |]. tauto.
      * intros [[->|H] N]; [tauto |].
        destruct (list_eq_dec N.eq_dec y x) as [->|D]; [tauto |].
        right. split; [assumption |]. intros [E|E]; [congruence | tauto].
Qed.

Lemma unique_In (col : list pystr) (x : pystr) : In x (unique col) <-> In x col.
Proof. unfold unique. rewrite unique_from_In. simpl. tauto. Qed.

Lemma unique_from_NoDup (col seen : list pystr) : NoDup (unique_from seen col).
Proof.
  revert seen; induction col as [|y col IH]; intros seen; simpl.
  - constructor.
  - destruct (mem y seen); [apply IH |].
    constructor; [| apply IH].
    rewrite unique_from_In. simpl. tauto.
Qed.

(* ------------------------------------------------------------------ *)
(** ** Enrichment *)

Lemma Qltb_lt (x y : Q) : Cell.Qltb x y = true <-> (x < y)%Q.
Proof.
  unfold Cell.Qltb. rewrite negb_true_iff.
  destruct (Qle_bool y x) eqn:E.
  - apply Qle_bool_iff in E. split; [discriminate |].
    intros H. exfalso. exact (Qlt_not_le _ _ H E).
  - split; [intros _ | reflexivity].
    apply Qnot_le_lt. intros H. apply Qle_bool_iff in H. congruence.
Qed.

Lemma Delayed_neq_On_Time : Delayed <> On_Time.
Proof. discriminate. Qed.

Lemma delay_flag_of_row (r : RawRow) :
  let e := enrich_row r in
  Duration_Difference e = Cell.sub (Actual_Duration e) (Estimated_Duration e)
  /\ Delay_Flag e = delay_flag_of (Duration_Difference e).
Proof. split; reflexivity. Qed.

Lemma delay_flag_of_iff (diff : Cell.num) :
  (delay_flag_of diff = Delayed <-> exists d, diff = Some d /\ (0 < d)%Q)
  /\ (delay_flag_of diff = On_Time <-> ~ exists d, diff = Some d /\ (0 < d)%Q).
Proof.
  unfold delay_flag_of, np_where.
  destruct diff as [d0|]; simpl.
  - destruct (Cell.Qltb 0 d0) eqn:E.
    + assert (L : (0 < d0)%Q) by now apply Qltb_lt.
      split.
      * split; [intros _; exists d0; now split | reflexivity].
      * split; [intros H; now apply Delayed_neq_On_Time in H |].
        intros H. exfalso. apply H. exists d0. now split.
    + assert (L : ~ (0 < d0)%Q).
      { intros H. apply Qltb_lt in H. congruence. }
      split.
      * split; [intros H; symmetry in H; now apply Delayed_neq_On_Time in H |].
        intros (d & [= <-] & H). contradiction.
      * split; [| reflexivity]. intros _ (d & [= <-] & H). contradiction.
  - split.
    + split; [intros H; symmetry in H; now apply Delayed_neq_On_Time in H |].
      intros (d & H & _). discriminate.
    + split; [| reflexivity]. intros _ (d & H & _). discriminate.
Qed.

Lemma enrich_ok_rows (raw : list RawRow) (df : DataFrame) :
  enrich raw = Ok df -> df = List.map enrich_row raw.
Proof.
  unfold enrich. destruct (_ && _); [| discriminate]. now intros [= <-].
Qed.



Lemma is_float_column_iff (col : list csv_cell) :
  is_float_column col = true <-> forall c, In c col -> is_text c = false.
Proof.
  unfold is_float_column. rewrite negb_true_iff. split.
  - intros H c Hc. destruct (is_text c) eqn:T; [| reflexivity].
    assert (E : existsb is_text col = true).
    { apply existsb_exists. now exists c. }
    congruence.
  - intros H. destruct (existsb is_text col) eqn:E; [| reflexivity].
    apply existsb_exists in E. destruct E as (c & Hc & T).
    rewrite (H c Hc) in T. discriminate.
Qed.




(* ------------------------------------------------------------------ *)
(** ** Filter *)

Lemma row_selected_iff (ds ps fs : list pystr) (r : Row) :
  row_selected ds ps fs r = true <->
  In (Department r) ds /\ In (Priority_Level r) ps /\ In (Delay_Flag r) fs.
Proof.
  unfold row_selected. rewrite !andb_true_iff, !mem_In. tauto.
Qed.

Lemma filtered_df_filter (df : DataFrame) (ds ps fs : list pystr) :
  filtered_df df ds ps fs = filter (row_selected ds ps fs) df.
Proof.
  unfold filtered_df, isin, row_selected.
  induction df as [|r df IH]; simpl; [reflexivity |].
  rewrite IH. reflexivity.
Qed.

Lemma filter_all (A : Type) (p : A -> bool) (l : list A) :
  (forall x, In x l -> p x = true) -> filter p l = l.
Proof.
  induction l as [|x l IH]; simpl; intros H; [reflexivity |].
  rewrite (H x (or_introl eq_refl)). f_equal. apply IH.
  intros y Hy. apply H. now right.
Qed.

Lemma filter_none (A : Type) (p : A -> bool) (l : list A) :
  (forall x, In x l -> p x = false) -> filter p l = [].
Proof.
  induction l as [|x l IH]; simpl; intros H; [reflexivity |].
  rewrite (H x (or_introl eq_refl)). apply IH.
  intros y Hy. apply H. now right.
Qed.

Lemma filter_subseq (A : Type) (p : A -> bool) (l : list A) :
  subseq (filter p l) l.
Proof.
  induction l as [|x l IH]; simpl; [constructor |].
  destruct (p x); now constructor.
Qed.

(** C3. The filter returns the subsequence of the rows whose department,
    priority and delay flag each belong to the selection of their dimension:
    it is the input with exactly the rows that fail a membership removed.
    An empty selection in any dimension gives an empty result, and the
    selection of all distinct values of each column gives the input back. *)
Theorem filtered_df_spec (df : DataFrame) (ds ps fs : list pystr) :
  filtered_df df ds ps fs = filter (row_selected ds ps fs) df
  /\ subseq (filtered_df df ds ps fs) df
  /\ (forall r, row_selected ds ps fs r = true <->
        In (Department r) ds /\ In (Priority_Level r) ps /\ In (Delay_Flag r) fs)
  /\ (forall r, In r (filtered_df df ds ps fs) <->
        In r df /\ In (Department r) ds /\ In (Priority_Level r) ps
        /\ In (Delay_Flag r) fs)
  /\ filtered_df df [] ps fs = []
  /\ filtered_df df ds [] fs = []
  /\ filtered_df df ds ps [] = []
  /\ filtered_df df (default_selection Department df)
       (default_selection Priority_Level df)
       (default_selection Delay_Flag df) = df.
Proof.
  split; [apply filtered_df_filter |].
  split; [rewrite filtered_df_filter; apply filter_subseq |].
  split; [intros r; apply row_selected_iff |].
  split.
  { intros r. rewrite filtered_df_filter, filter_In, row_selected_iff. tauto. }
  rewrite !filtered_df_filter.
  split; [| split; [| split]].
  - apply filter_none. intros r _. reflexivity.
  - apply filter_none. intros r _. unfold row_selected.
    simpl. now rewrite andb_false_r.
  - apply filter_none. intros r _. unfold row_selected.
    simpl. now rewrite andb_false_r.
  - apply filter_all. intros r Hr. apply row_selected_iff.
    unfold default_selection. rewrite !unique_In.
    repeat split; now apply in_map.
Qed.

(* ------------------------------------------------------------------ *)
(** ** Delay percentage *)

Lemma series_get_value_counts (col : list pystr) (seen : list pystr)
    (f : pystr -> Q) (v : pystr) :
  series_get (List.map (fun x => (x, f x)) (unique_from seen col)) v 0%Q
  = if mem v (unique_from seen col) then f v else 0%Q.
Proof.
  induction (unique_from seen col) as [|x l IH]; simpl; [reflexivity |].
  rewrite (eqb_sym v x).
  destruct (PyStr.eqb x v) eqn:E; simpl.
  - apply eqb_eq in E. now subst.
  - apply IH.
Qed.

Lemma count_value_zero (col : list pystr) (v : pystr) :
  ~ In v col -> count_value col v = 0%nat.
Proof.
  intros H. unfold count_value. rewrite filter_none; [reflexivity |].
  intros x Hx. apply eqb_neq. intros ->. contradiction.
Qed.

Lemma count_value_le (col : list pystr) (v : pystr) :
  (count_value col v <= List.length col)%nat.
Proof. apply filter_length_le. Qed.

Lemma count_value_all (col : list pystr) (v : pystr) :
  (forall x, In x col -> x = v) -> count_value col v = List.length col.
Proof.
  intros H. unfold count_value. rewrite filter_all; [reflexivity |].
  intros x Hx. apply eqb_eq. symmetry. now apply H.
Qed.

Lemma Qnat_pos (n : nat) : (0 < n)%nat -> (0 < Qnat n)%Q.
Proof.
  intros H. unfold Qnat, Qlt. simpl. lia.
Qed.

Lemma Qnat_le (n m : nat) : (n <= m)%nat -> (Qnat n <= Qnat m)%Q.
Proof.
  intros H. unfold Qnat, Qle. simpl. lia.
Qed.

Lemma Qnat_nonneg (n : nat) : (0 <= Qnat n)%Q.
Proof. unfold Qnat, Qle. simpl. lia. Qed.

Lemma delay_percentage_eq (data : DataFrame) :
  data <> [] -> (delay_percentage data == delayed_share data)%Q.
Proof.
  intros Hne. unfold delay_percentage, delayed_share, value_counts_normalize.
  unfold unique. rewrite series_get_value_counts. fold (unique (List.map Delay_Flag data)).
  rewrite length_map.
  assert (Hlen : ~ (Qnat (List.length data) == 0)%Q).
  { intros H. destruct data; [congruence |].
    pose proof (Qnat_pos (n := List.length (r :: data))) as P.
    simpl List.length in *. rewrite H in P.
    apply (Qlt_irrefl 0). apply P. lia. }
  destruct (mem Delayed (unique (List.map Delay_Flag data))) eqn:M.
  - field. exact Hlen.
  - assert (Z : count_value (List.map Delay_Flag data) Delayed = 0%nat).
    { apply count_value_zero. intros H. apply unique_In in H.
      apply mem_In in H. congruence. }
    rewrite Z. unfold Qnat at 1. simpl. field. exact Hlen.
Qed.

Lemma delayed_share_bounds (data : DataFrame) :
  data <> [] -> (0 <= delayed_share data <= 100)%Q.
Proof.
  intros Hne. unfold delayed_share.
  set (c := count_value (List.map Delay_Flag data) Delayed).
  assert (Hc : (c <= List.length data)%nat).
  { unfold c. rewrite <- (length_map Delay_Flag data). apply count_value_le. }
  assert (Hl : (0 < List.length data)%nat).
  { destruct data; [congruence | simpl; lia]. }
  split.
  - apply Qle_shift_div_l; [now apply Qnat_pos |].
    rewrite Qmult_0_l. apply Qmult_le_0_compat; [discriminate |].
    apply Qnat_nonneg.
  - apply Qle_shift_div_r; [now apply Qnat_pos |].
    apply Qmult_le_l; [reflexivity |]. now apply Qnat_le.
Qed.

Lemma rint_bounds (y : Q) (k : Z) :
  (0 <= y)%Q -> (y <= inject_Z k)%Q -> (0 <= rint y <= k)%Z.
Proof.
  destruct y as [n d]. unfold Qle, rint. cbn [Qnum Qden inject_Z].
  intros H0 Hk.
  pose proof (Z.div_mod n (Zpos d) ltac:(lia)) as DM.
  pose proof (Z.mod_pos_bound n (Zpos d) ltac:(lia)) as MB.
  set (q := (n / Zpos d)%Z) in *. set (m := (n mod Zpos d)%Z) in *.
  assert (Hq : (0 <= q)%Z) by nia.
  assert (Hqk : (q <= k)%Z) by nia.
  assert (Hlt : (q = k -> m = 0)%Z) by nia.
  destruct (2 * m ?= Zpos d)%Z eqn:C.
  - apply Z.compare_eq_iff in C.
    destruct (Z.even q); [lia |].
    destruct (Z.eq_dec q k) as [E|E]; [specialize (Hlt E); lia | lia].
  - lia.
  - apply Z.compare_gt_iff in C.
    destruct (Z.eq_dec q k) as [E|E]; [specialize (Hlt E); lia | lia].
Qed.

Lemma rint_integer (y : Q) (k : Z) : (y == inject_Z k)%Q -> rint y = k.
Proof.
  destruct y as [n d]. unfold Qeq, rint. cbn [Qnum Qden inject_Z]. intros H.
  assert (E : (n = k * Zpos d)%Z) by lia.
  rewrite E, Z.div_mul, Z.mod_mul by lia. reflexivity.
Qed.

Lemma round2_bounds (x : Q) : (0 <= x <= 100)%Q -> (0 <= round2 x <= 100)%Q.
Proof.
  intros [H0 H1].
  assert (B : (0 <= rint (x * 100) <= 10000)%Z).
  { apply rint_bounds.
    - apply Qmult_le_0_compat; [assumption | discriminate].
    - change (inject_Z 10000) with (100 * 100)%Q.
      apply Qmult_le_compat_r; [assumption | discriminate]. }
  unfold round2. set (z := rint (x * 100)) in *.
  unfold Qdiv, Qinv, Qmult, Qle. simpl. lia.
Qed.

Lemma round2_integer (x : Q) (k : Z) :
  (x == inject_Z k)%Q -> (round2 x == inject_Z k)%Q.
Proof.
  intros H. unfold round2.
  rewrite (rint_integer (y := (x * 100)%Q) (k := (k * 100)%Z)).
  - unfold Qeq, Qdiv, Qmult, Qinv. simpl. lia.
  - rewrite H. unfold Qeq, Qmult. simpl. lia.
Qed.


(* ------------------------------------------------------------------ *)
(** ** Employee identifier *)

Section DigitRuns.

Variable digit : N -> bool.

Lemma scan_open_run (s run : pystr) :
  run <> [] ->
  exists rest, Re.scan digit s run = (rev run ++ Re.take_digits digit s) :: rest.
Proof.
  revert run; induction s as [|c s IH]; intros run Hrun; simpl.
  - destruct run; [congruence |]. exists []. simpl. now rewrite app_nil_r.
  - destruct (digit c).
    + destruct (IH (c :: run)) as [rest E]; [discriminate |].
      exists rest. rewrite E. simpl. now rewrite <- app_assoc.
    + destruct run; [congruence |]. simpl. rewrite app_nil_r.
      now exists (Re.scan digit s []).
Qed.

Lemma findall_head (s : pystr) :
  hd_error (Re.findall_with digit s) = Re.first_run digit s.
Proof.
  unfold Re.findall_with. induction s as [|c s IH]; simpl; [reflexivity |].
  destruct (digit c); [| exact IH].
  destruct (scan_open_run s (run := [c])) as [rest E]; [discriminate |].
  rewrite E. reflexivity.
Qed.

Lemma take_digits_split (s : pystr) :
  exists post,
    s = Re.take_digits digit s ++ post
    /\ Forall (fun c => digit c = true) (Re.take_digits digit s)
    /\ match post with [] => True | c :: _ => digit c = false end.
Proof.
  induction s as [|c s (post & E & F & P)]; simpl.
  - exists []. repeat split. constructor.
  - destruct (digit c) eqn:D.
    + exists post. simpl. rewrite <- E. repeat split; [| assumption].
      now constructor.
    + exists (c :: s). repeat split; [constructor | assumption].
Qed.

Lemma first_run_some (s run : pystr) :
  Re.first_run digit s = Some run ->
  exists pre post,
    s = pre ++ run ++ post
    /\ Forall (fun c => digit c = false) pre
    /\ run <> []
    /\ Forall (fun c => digit c = true) run
    /\ match post with [] => True | c :: _ => digit c = false end.
Proof.
  revert run; induction s as [|c s IH]; intros run; simpl; [discriminate |].
  destruct (digit c) eqn:D.
  - intros [= <-]. destruct (take_digits_split s) as (post & E & F & P).
    exists [], post. simpl. rewrite <- E.
    repeat split; try assumption; [constructor | discriminate | now constructor].
  - intros H. destruct (IH run H) as (pre & post & E & F & NE & G & P).
    exists (c :: pre), post. simpl. rewrite <- E.
    repeat split; try assumption. now constructor.
Qed.

Lemma first_run_none (s : pystr) :
  Re.first_run digit s = None -> Forall (fun c => digit c = false) s.
Proof.
  induction s as [|c s IH]; simpl; [constructor |].
  destruct (digit c) eqn:D; [discriminate |].
  intros H. constructor; auto.
Qed.

End DigitRuns.

Lemma take_digits_ext (f g : N -> bool) (s : pystr) :
  Forall (fun c => f c = g c) s -> Re.take_digits f s = Re.take_digits g s.
Proof.
  induction 1 as [|c s E _ IH]; simpl; [reflexivity |].
  rewrite E, IH. reflexivity.
Qed.

Lemma first_run_ext (f g : N -> bool) (s : pystr) :
  Forall (fun c => f c = g c) s -> Re.first_run f s = Re.first_run g s.
Proof.
  induction 1 as [|c s E F IH]; simpl; [reflexivity |].
  rewrite E, IH, (take_digits_ext f g F). reflexivity.
Qed.

Lemma in_ranges_above (c bound : N) (rs : list (N * N)) :
  (c < bound)%N ->
  forallb (fun r => (bound <=? fst r)%N) rs = true ->
  existsb (fun r => (fst r <=? c)%N && (c <=? snd r)%N) rs = false.
Proof.
  intros Hc. induction rs as [|r rs IH]; simpl; [reflexivity |].
  rewrite andb_true_iff. intros [H1 H2]. apply N.leb_le in H1.
  rewrite (IH H2), orb_false_r.
  apply andb_false_intro1. apply N.leb_gt. lia.
Qed.

Lemma is_decimal_ascii (c : N) :
  (c < 128)%N -> Re.is_decimal c = Re.is_ascii_digit c.
Proof.
  intros Hc.
  change (Re.is_decimal c)
    with (Re.is_ascii_digit c
          || existsb (fun r => (fst r <=? c)%N && (c <=? snd r)%N)
                     (tl Re.Nd_ranges)).
  rewrite (in_ranges_above (bound := 128)); [apply orb_false_r | assumption |].
  vm_compute. reflexivity.
Qed.

Lemma extract_employee_id_first_run (x : pystr) :
  extract_employee_id x = Re.first_run Re.is_decimal x.
Proof.
  unfold extract_employee_id, Re.findall_digits.
  rewrite <- findall_head.
  destruct (Re.findall_with Re.is_decimal x); reflexivity.
Qed.

(** C8 (as the code has it). The identifier is the first maximal run of
    decimal digits of the employee string, scanning from the left, where a
    decimal digit is any character that [\d] matches (Unicode category Nd):
    the string splits into a digit-free prefix, the non-empty run, and a
    rest that does not start with a digit.  It is null exactly when the
    string has no digit; what follows the first run plays no part.  Below
    code point 128, [\d] matches the ASCII digits only, so for a string of
    ASCII characters the identifier is the first run of ASCII digits. *)
Theorem employee_id_first_digit_run (x : pystr) :
  match extract_employee_id x with
  | Some run =>
      exists pre post,
        x = pre ++ run ++ post
        /\ Forall (fun c => Re.is_decimal c = false) pre
        /\ run <> []
        /\ Forall (fun c => Re.is_decimal c = true) run
        /\ match post with [] => True | c :: _ => Re.is_decimal c = false end
  | None => Forall (fun c => Re.is_decimal c = false) x
  end
  /\ (forall c, (c < 128)%N -> Re.is_decimal c = Re.is_ascii_digit c)
  /\ (Forall (fun c => (c < 128)%N) x ->
      extract_employee_id x = Re.first_run Re.is_ascii_digit x).
Proof.
  split; [| split].
  - rewrite extract_employee_id_first_run.
    destruct (Re.first_run Re.is_decimal x) as [run|] eqn:E.
    + now apply first_run_some.
    + now apply first_run_none.
  - exact is_decimal_ascii.
  - intros H. rewrite extract_employee_id_first_run.
    apply first_run_ext. eapply Forall_impl; [| exact H].
    intros c Hc. now apply is_decimal_ascii.
Qed.

Lemma employee_id_first_digit_run_witness :
  Forall (fun c => (c < 128)%N) (lit "John_42x9")
  /\ extract_employee_id (lit "John_42x9")
     = Re.first_run Re.is_ascii_digit (lit "John_42x9").
Proof.
  assert (H : Forall (fun c => (c < 128)%N) (lit "John_42x9")).
  { repeat constructor. }
  split; [exact H |].
  exact (proj2 (proj2 (employee_id_first_digit_run (lit "John_42x9"))) H).
Defined.

(** C8 (as stated) fails: in the string "Ali", U+0664, U+0662, "_7" the
    first run of ASCII digits is "7", but [\d+] first matches the two
    ARABIC-INDIC digits. *)
Lemma employee_id_not_ascii_run :
  extract_employee_id ali_42_7 = Some [1636%N; 1634%N]
  /\ Re.first_run Re.is_ascii_digit ali_42_7 = Some (lit "7")
  /\ extract_employee_id ali_42_7 <> Re.first_run Re.is_ascii_digit ali_42_7.
Proof.
  split; [vm_compute; reflexivity |].
  split; [vm_compute; reflexivity |].
  vm_compute. discriminate.
Qed.

(* ------------------------------------------------------------------ *)
(** ** Group keys *)

Section SortedKeys.

Variable K : Type.
Variable cmp : K -> K -> comparison.
Hypothesis cmp_eq : forall a b, cmp a b = Eq <-> a = b.
Hypothesis cmp_antisym : forall a b, cmp b a = CompOpp (cmp a b).
Hypothesis cmp_trans : forall a b c, cmp a b = Lt -> cmp b c = Lt -> cmp a c = Lt.

Lemma insert_key_In (k x : K) (l : list K) :
  In x (insert_key cmp k l) <-> x = k \/ In x l.
Proof.
  induction l as [|y l IH]; simpl.
  - intuition.
  - destruct (cmp k y) eqn:E; simpl.
    + apply cmp_eq in E. subst y. intuition.
    + intuition.
    + rewrite IH. intuition.
Qed.

Lemma sorted_keys_In (x : K) (col : list K) :
  In x (sorted_keys cmp col) <-> In x col.
Proof.
  unfold sorted_keys. induction col as [|y col IH]; simpl; [tauto |].
  rewrite insert_key_In, IH. intuition.
Qed.

Lemma insert_key_not_nil (k : K) (l : list K) : insert_key cmp k l <> [].
Proof.
  destruct l as [|y l]; simpl; [discriminate |].
  destruct (cmp k y); discriminate.
Qed.

Lemma sorted_keys_not_nil (col : list K) : col <> [] -> sorted_keys cmp col <> [].
Proof.
  destruct col as [|y col]; [congruence |]. intros _.
  apply insert_key_not_nil.
Qed.

Lemma insert_key_sorted (k : K) (l : list K) :
  StronglySorted (fun a b => cmp a b = Lt) l -> StronglySorted (fun a b => cmp a b = Lt) (insert_key cmp k l).
Proof.
  induction 1 as [|y l S IH F]; simpl.
  - repeat constructor.
  - destruct (cmp k y) eqn:E.
    + now constructor.
    + constructor; [now constructor |].
      constructor; [exact E |].
      eapply Forall_impl; [| exact F]. intros z Hz. eapply cmp_trans; eauto.
    + constructor; [exact IH |].
      apply Forall_forall. intros z Hz. apply insert_key_In in Hz.
      destruct Hz as [->|Hz].
      * cbv beta. rewrite cmp_antisym, E. reflexivity.
      * rewrite Forall_forall in F. now apply F.
Qed.

Lemma sorted_keys_sorted (col : list K) : StronglySorted (fun a b => cmp a b = Lt) (sorted_keys cmp col).
Proof.
  unfold sorted_keys. induction col as [|y col IH]; simpl.
  - constructor.
  - now apply insert_key_sorted.
Qed.

Lemma sorted_NoDup (l : list K) : StronglySorted (fun a b => cmp a b = Lt) l -> NoDup l.
Proof.
  induction 1 as [|y l S IH F]; constructor; [| exact IH].
  intros Hy. rewrite Forall_forall in F. specialize (F y Hy).
  cbv beta in F. rewrite (proj2 (cmp_eq y y) eq_refl) in F. discriminate.
Qed.

Lemma sorted_split_lt (l1 l2 : list K) (k x : K) :
  StronglySorted (fun a b => cmp a b = Lt) (l1 ++ k :: l2) -> In x l2 -> cmp k x = Lt.
Proof.
  induction l1 as [|y l1 IH]; simpl; intros S Hx.
  - inversion S as [|? ? _ F]; subst. rewrite Forall_forall in F. now apply F.
  - inversion S; subst. now apply IH.
Qed.

End SortedKeys.

Lemma pystr_keys_sorted (col : list pystr) :
  StronglySorted (fun a b => PyStr.compare a b = Lt)
                 (sorted_keys PyStr.compare col).
Proof.
  apply sorted_keys_sorted.
  - exact compare_eq_iff.
  - exact compare_antisym.
  - exact compare_lt_trans.
Qed.

Lemma pystr_keys_In (x : pystr) (col : list pystr) :
  In x (sorted_keys PyStr.compare col) <-> In x col.
Proof. apply sorted_keys_In. exact compare_eq_iff. Qed.

Lemma Z_compare_lt_trans (a b c : Z) :
  (a ?= b)%Z = Lt -> (b ?= c)%Z = Lt -> (a ?= c)%Z = Lt.
Proof. rewrite !Z.compare_lt_iff. lia. Qed.

Lemma date_keys_In (x : Z) (col : list Z) :
  In x (sorted_keys Z.compare col) <-> In x col.
Proof. apply sorted_keys_In. exact Z.compare_eq_iff. Qed.

Lemma date_keys_NoDup (col : list Z) : NoDup (sorted_keys Z.compare col).
Proof.
  apply sorted_NoDup with (cmp := Z.compare).
  - exact Z.compare_eq_iff.
  - apply sorted_keys_sorted.
    + exact Z.compare_eq_iff.
    + intros a b. apply Z.compare_antisym.
    + exact Z_compare_lt_trans.
Qed.

Lemma groupby_agg_not_nil (V : Type) (key : Row -> pystr)
    (agg : DataFrame -> V) (data : DataFrame) :
  data <> [] -> groupby_agg key agg data <> [].
Proof.
  intros H E. unfold groupby_agg in E. apply map_eq_nil in E.
  revert E. apply sorted_keys_not_nil. destruct data; [congruence | discriminate].
Qed.

(* ------------------------------------------------------------------ *)
(** ** Recommendation engine *)

Lemma idxmax_ok (s : list (pystr * Cell.num)) :
  s <> [] -> idxmax s = Ok (option_map fst (argmax_from None s)).
Proof. destruct s; [congruence | reflexivity]. Qed.

(** The shape of the result on a non-empty frame. *)
Lemma generate_insights_shape (data : DataFrame) :
  data <> [] ->
  exists d e,
    idxmax (dept_mean_cost data) = Ok d
    /\ idxmax (emp_total_duration data) = Ok e
    /\ generate_insights data
       = Ok ((if Cell.gt (delay_rate data) (3 # 10) then [msg_high_delay] else [])
             ++ [msg_high_cost d; msg_overloaded e]
             ++ (if (0 <? List.length (high_priority_delay data))%nat
                 then [msg_high_priority] else [])).
Proof.
  intros Hne.
  pose proof (idxmax_ok (groupby_agg_not_nil Department
     (fun g => Cell.mean (List.map Cost_Per_Task g)) Hne)) as Hd.
  pose proof (idxmax_ok (groupby_agg_not_nil Assigned_Employee
     (fun g => Some (Cell.sum (List.map Actual_Duration g))) Hne)) as He.
  fold (dept_mean_cost data) in Hd. fold (emp_total_duration data) in He.
  eexists. eexists. split; [exact Hd |]. split; [exact He |].
  unfold generate_insights. rewrite Hd, He. unfold bind.
  destruct (Cell.gt (delay_rate data) (3 # 10));
    destruct (0 <? List.length (high_priority_delay data))%nat; reflexivity.
Qed.

Lemma insights_counts (d e : option pystr) (before after : list pystr) :
  (before = [] \/ before = [msg_high_delay]) ->
  (after = [] \/ after = [msg_high_priority]) ->
  let l := before ++ [msg_high_cost d; msg_overloaded e] ++ after in
  (2 <= List.length l <= 4)%nat
  /\ count_rule is_rule2 l = 1%nat
  /\ count_rule is_rule3 l = 1%nat
  /\ (count_rule is_rule1 l <= 1)%nat
  /\ (count_rule is_rule4 l <= 1)%nat
  /\ List.length l
     = (count_rule is_rule1 l + count_rule is_rule2 l
        + count_rule is_rule3 l + count_rule is_rule4 l)%nat.
Proof.
  intros [->| ->] [->| ->]; cbv zeta;
    unfold count_rule, msg_high_cost, msg_overloaded, msg_high_delay,
      msg_high_priority; cbn [app filter List.length is_rule1 is_rule2
      is_rule3 is_rule4 N.eqb Pos.eqb]; repeat split; lia.
Qed.

Lemma insights_parts (data : DataFrame) :
  ((if Cell.gt (delay_rate data) (3 # 10) then [msg_high_delay] else []) = []
   \/ (if Cell.gt (delay_rate data) (3 # 10) then [msg_high_delay] else [])
      = [msg_high_delay])
  /\ ((if (0 <? List.length (high_priority_delay data))%nat
       then [msg_high_priority] else []) = []
      \/ (if (0 <? List.length (high_priority_delay data))%nat
          then [msg_high_priority] else []) = [msg_high_priority]).
Proof.
  destruct (Cell.gt _ _); destruct (0 <? _)%nat; auto.
Qed.

(** C1 (the failing case). On an empty frame [generate_insights] does not
    return: the department means form an empty Series and [idxmax] raises
    [ValueError] at line 150, after the first rule has been skipped (the
    delay rate of an empty frame is NaN).  The empty frame is what the
    filter gives when no department is selected. *)
Theorem generate_insights_empty_raises (df : DataFrame)
    (priority_filter delay_filter : list pystr) :
  delay_rate [] = None
  /\ dept_mean_cost [] = []
  /\ generate_insights []
     = Raise (ValueError "attempt to get argmax of an empty sequence")
  /\ filtered_df df [] priority_filter delay_filter = []
  /\ generate_insights (filtered_df df [] priority_filter delay_filter)
     = Raise (ValueError "attempt to get argmax of an empty sequence").
Proof.
  assert (E : filtered_df df [] priority_filter delay_filter = []).
  { rewrite filtered_df_filter. apply filter_none. intros r _. reflexivity. }
  rewrite E. repeat split.
Qed.



(** [idxmax] picks the first occurrence of the maximum: the entries before
    it are smaller, the entries after it are not greater. *)
Lemma argmax_from_spec (s : list (pystr * Cell.num)) :
  forall best : option (pystr * Q),
  match argmax_from best s with
  | None => best = None /\ Forall (fun e => snd e = None) s
  | Some (k, v) =>
      (best = Some (k, v)
       /\ Forall (fun e => forall v', snd e = Some v' -> (v' <= v)%Q) s)
      \/ (exists s1 s2,
            s = s1 ++ (k, Some v) :: s2
            /\ (forall b, best = Some b -> (snd b < v)%Q)
            /\ Forall (fun e => forall v', snd e = Some v' -> (v' < v)%Q) s1
            /\ Forall (fun e => forall v', snd e = Some v' -> (v' <= v)%Q) s2)
  end.
Proof.
  induction s as [|[k0 [v0|]] s IH]; intros best; simpl.
  - destruct best as [[k v]|]; [left |]; split; auto.
  - destruct best as [[kb b]|].
    + destruct (Cell.Qltb b v0) eqn:L.
      * apply Qltb_lt in L. specialize (IH (Some (k0, v0))).
        destruct (argmax_from (Some (k0, v0)) s) as [[k v]|].
        -- right. destruct IH as [[[= <- <-] F] | (s1 & s2 & -> & B & F1 & F2)].
           ++ exists [], s. repeat split; auto.
              intros b' [= <-]. exact L.
           ++ exists ((k0, Some v0) :: s1), s2.
              assert (Hv : (v0 < v)%Q) by exact (B _ eq_refl).
              repeat split; auto.
              ** intros b' [= <-]. simpl. eapply Qlt_trans; eauto.
              ** constructor; [| exact F1]. intros v' [= <-]. exact Hv.
        -- destruct IH as [IH _]. discriminate.
      * assert (L' : (v0 <= b)%Q).
        { apply Qnot_lt_le. intros H. apply Qltb_lt in H. congruence. }
        specialize (IH (Some (kb, b))).
        destruct (argmax_from (Some (kb, b)) s) as [[k v]|].
        -- destruct IH as [[[= <- <-] F] | (s1 & s2 & -> & B & F1 & F2)].
           ++ left. split; [reflexivity |]. constructor; [| exact F].
              intros v' [= <-]. exact L'.
           ++ right. exists ((k0, Some v0) :: s1), s2.
              assert (Hv : (b < v)%Q) by exact (B _ eq_refl).
              repeat split; auto.
              constructor; [| exact F1]. intros v' [= <-]. simpl.
              eapply Qle_lt_trans; eauto.
        -- destruct IH as [IH _]. discriminate.
    + specialize (IH (Some (k0, v0))).
      destruct (argmax_from (Some (k0, v0)) s) as [[k v]|].
      * right. destruct IH as [[[= <- <-] F] | (s1 & s2 & -> & B & F1 & F2)].
        -- exists [], s. repeat split; auto. discriminate.
        -- exists ((k0, Some v0) :: s1), s2.
           repeat split; auto; [discriminate |].
           constructor; [| exact F1]. intros v' [= <-]. exact (B _ eq_refl).
      * destruct IH as [IH _]. discriminate.
  - specialize (IH best).
    destruct (argmax_from best s) as [[k v]|].
    + destruct IH as [[-> F] | (s1 & s2 & -> & B & F1 & F2)].
      * left. split; [reflexivity |]. constructor; [discriminate | exact F].
      * right. exists ((k0, None) :: s1), s2. repeat split; auto.
        constructor; [discriminate | exact F1].
    + destruct IH as [-> F]. split; [reflexivity |]. now constructor.
Qed.

Lemma mean_none (l : list Cell.num) :
  Cell.mean l = None -> Forall (fun c => c = None) l.
Proof.
  unfold Cell.mean. induction l as [|[x|] l IH]; simpl.
  - constructor.
  - discriminate.
  - intros H. constructor; [reflexivity |]. apply IH.
    destruct (Cell.dropna l); [reflexivity | discriminate].
Qed.

Lemma group_rows_In (key : Row -> pystr) (data : DataFrame) (r : Row) :
  In r data -> In r (group_rows key data (key r)).
Proof.
  intros H. unfold group_rows. apply filter_In. split; [exact H | apply eqb_refl].
Qed.

Lemma dept_mean_cost_entries (data : DataFrame) :
  dept_mean_cost data
  = List.map (fun d => (d, dept_mean data d))
             (sorted_keys PyStr.compare (List.map Department data)).
Proof. reflexivity. Qed.



(* ------------------------------------------------------------------ *)
(** ** Daily delay trend *)

Lemma trend_df_rows (data : DataFrame) :
  let s := grouped_value_counts data in
  trend_df data
  = List.map
      (fun d =>
         (d, List.map (fun f => (f, fill0 (pair_get s d f)))
               (sorted_keys PyStr.compare (List.map (fun e => snd (fst e)) s))))
      (sorted_keys Z.compare (List.map (fun e => fst (fst e)) s)).
Proof.
  cbv zeta. unfold trend_df, fillna0, unstack. rewrite map_map.
  apply map_ext. intros d. cbn [fst snd]. now rewrite map_map.
Qed.

Lemma grouped_value_counts_In (data : DataFrame) (d : Z) (f : pystr) (n : nat) :
  In ((d, f), n) (grouped_value_counts data) <->
  In d (List.map date_of data)
  /\ In f (List.map Delay_Flag (rows_on data d))
  /\ n = count_value (List.map Delay_Flag (rows_on data d)) f.
Proof.
  unfold grouped_value_counts. rewrite in_flat_map. split.
  - intros (d' & Hd' & H). apply in_map_iff in H.
    destruct H as (f' & [= -> -> <-] & Hf').
    rewrite date_keys_In in Hd'. rewrite unique_In in Hf'. auto.
  - intros (Hd & Hf & ->). exists d. split; [now rewrite date_keys_In |].
    apply in_map_iff. exists f. split; [reflexivity | now rewrite unique_In].
Qed.

Lemma rows_on_In (data : DataFrame) (d : Z) (r : Row) :
  In r (rows_on data d) <-> In r data /\ date_of r = d.
Proof. unfold rows_on. rewrite filter_In, Z.eqb_eq. tauto. Qed.

Lemma trend_dates_In (data : DataFrame) (d : Z) :
  In d (List.map (fun e => fst (fst e)) (grouped_value_counts data)) <->
  In d (List.map date_of data).
Proof.
  rewrite in_map_iff. split.
  - intros ([[d' f] n] & <- & H). rewrite grouped_value_counts_In in H.
    cbn [fst]. tauto.
  - intros H. pose proof H as H'. apply in_map_iff in H'.
    destruct H' as (r & <- & Hr).
    exists ((date_of r, Delay_Flag r),
            count_value (List.map Delay_Flag (rows_on data (date_of r)))
                        (Delay_Flag r)).
    split; [reflexivity |]. rewrite grouped_value_counts_In.
    repeat split; [assumption |]. apply in_map. now rewrite rows_on_In.
Qed.

Lemma trend_flags_In (data : DataFrame) (f : pystr) :
  In f (List.map (fun e => snd (fst e)) (grouped_value_counts data)) <->
  In f (List.map Delay_Flag data).
Proof.
  rewrite in_map_iff. split.
  - intros ([[d f'] n] & <- & H). rewrite grouped_value_counts_In in H.
    destruct H as (_ & H & _). apply in_map_iff in H.
    destruct H as (r & <- & Hr). cbn [fst snd]. apply in_map.
    rewrite rows_on_In in Hr. tauto.
  - intros H. apply in_map_iff in H. destruct H as (r & <- & Hr).
    exists ((date_of r, Delay_Flag r),
            count_value (List.map Delay_Flag (rows_on data (date_of r)))
                        (Delay_Flag r)).
    split; [reflexivity |]. rewrite grouped_value_counts_In.
    repeat split; [now apply in_map |]. apply in_map. now rewrite rows_on_In.
Qed.

Lemma pair_get_app (s1 s2 : list ((Z * pystr) * nat)) (d : Z) (f : pystr) :
  pair_get (s1 ++ s2) d f
  = match pair_get s1 d f with Some n => Some n | None => pair_get s2 d f end.
Proof.
  induction s1 as [|[[d' f'] n] s1 IH]; simpl; [reflexivity |].
  destruct (Z.eqb d' d && PyStr.eqb f' f); [reflexivity | exact IH].
Qed.

Lemma pair_get_group (d' d : Z) (f : pystr) (cnt : pystr -> nat)
    (keys : list pystr) :
  pair_get (List.map (fun x => ((d', x), cnt x)) keys) d f
  = if Z.eqb d' d && mem f keys then Some (cnt f) else None.
Proof.
  induction keys as [|x keys IH]; simpl.
  - now rewrite andb_false_r.
  - rewrite (eqb_sym f x). destruct (Z.eqb d' d); simpl; [| exact IH].
    destruct (PyStr.eqb x f) eqn:E; simpl.
    + apply eqb_eq in E. now subst.
    + simpl in IH. exact IH.
Qed.

Lemma fill0_pair_get (data : DataFrame) (d : Z) (f : pystr) :
  In d (List.map date_of data) ->
  fill0 (pair_get (grouped_value_counts data) d f)
  = count_value (List.map Delay_Flag (rows_on data d)) f.
Proof.
  intros Hd. rewrite <- date_keys_In in Hd. unfold grouped_value_counts.
  induction (sorted_keys Z.compare (List.map date_of data)) as [|d' ds IH];
    [contradiction |].
  cbn [flat_map]. rewrite pair_get_app, pair_get_group.
  destruct (Z.eqb d' d) eqn:E; cbn [andb].
  - apply Z.eqb_eq in E. subst d'.
    destruct (mem f (unique (List.map Delay_Flag (rows_on data d)))) eqn:M.
    + reflexivity.
    + assert (Z : count_value (List.map Delay_Flag (rows_on data d)) f = 0%nat).
      { apply count_value_zero. intros H. rewrite <- unique_In in H.
        apply mem_In in H. congruence. }
      rewrite Z.
      destruct (pair_get _ d f) as [n|] eqn:P; [| reflexivity].
      exfalso.
      assert (G : forall s n, pair_get s d f = Some n -> In ((d, f), n) s).
      { clear. induction s as [|[[d0 f0] n0] s IHs]; simpl; [discriminate |].
        intros n. destruct (Z.eqb d0 d && PyStr.eqb f0 f) eqn:B.
        - intros [= <-]. apply andb_true_iff in B. destruct B as [B1 B2].
          apply Z.eqb_eq in B1. apply eqb_eq in B2. subst. now left.
        - intros H. right. now apply IHs. }
      apply G in P. apply in_flat_map in P. destruct P as (d0 & _ & P).
      apply in_map_iff in P. destruct P as (f0 & [= -> -> _] & P).
      apply mem_In in P. congruence.
  - apply Z.eqb_neq in E. apply IH. destruct Hd as [Hd|Hd]; congruence.
Qed.

Lemma count_value_rows_on (data : DataFrame) (d : Z) (f : pystr) :
  count_value (List.map Delay_Flag (rows_on data d)) f = count_on data d f.
Proof.
  unfold count_value, count_on, rows_on.
  induction data as [|r data IH]; simpl; [reflexivity |].
  rewrite (eqb_sym (Delay_Flag r) f).
  destruct (Z.eqb (date_of r) d); simpl; [| exact IH].
  destruct (PyStr.eqb f (Delay_Flag r)); simpl; now rewrite IH.
Qed.

Lemma column_get_map (h : pystr -> nat) (cols : list pystr) (f : pystr) :
  column_get (List.map (fun x => (x, h x)) cols) f
  = if mem f cols then Some (h f) else None.
Proof.
  induction cols as [|x cols IH]; simpl; [reflexivity |].
  rewrite (eqb_sym f x). destruct (PyStr.eqb x f) eqn:E; simpl.
  - apply eqb_eq in E. now subst.
  - exact IH.
Qed.

Lemma mem_ext (x : pystr) (l1 l2 : list pystr) :
  (In x l1 <-> In x l2) -> mem x l1 = mem x l2.
Proof.
  intros H. destruct (mem x l1) eqn:A, (mem x l2) eqn:B; auto.
  - apply mem_In in A. apply H in A. apply mem_In in A. congruence.
  - apply mem_In in B. apply H in B. apply mem_In in B. congruence.
Qed.



(* ------------------------------------------------------------------ *)
(** ** Workload ranking *)

Lemma map_nth_seq (A : Type) (l : list A) (d : A) :
  List.map (fun i => nth i l d) (seq 0 (List.length l)) = l.
Proof.
  induction l as [|x l IH] using rev_ind; [reflexivity |].
  rewrite length_app. cbn [List.length]. rewrite Nat.add_1_r, seq_S, map_app.
  cbn [List.map Nat.add]. f_equal.
  - rewrite <- IH at 2. apply map_ext_in. intros i Hi.
    apply in_seq in Hi. apply app_nth1. lia.
  - rewrite app_nth2, Nat.sub_diag by lia. reflexivity.
Qed.

Section InsertionArgsortSpec.

Variable before : Q -> Q -> bool.
Hypothesis before_true : forall x y, before x y = true -> (x <= y)%Q.
Hypothesis before_false : forall x y, before x y = false -> (y <= x)%Q.

Variable v : list Q.

Lemma insert_pos_perm (i : nat) (l : list nat) :
  Permutation (insert_pos before v i l) (i :: l).
Proof.
  induction l as [|j l IH]; simpl; [reflexivity |].
  destruct (before _ _); [reflexivity |].
  rewrite IH. apply perm_swap.
Qed.

Lemma insert_pos_sorted (i : nat) (l : list nat) :
  Sorted Qle (List.map (fun i => nth i v 0%Q) l) ->
  Sorted Qle (List.map (fun i => nth i v 0%Q) (insert_pos before v i l)).
Proof.
  induction l as [|j l IH]; simpl; intros S.
  - repeat constructor.
  - destruct (before (nth i v 0%Q) (nth j v 0%Q)) eqn:B.
    + simpl. constructor; [exact S |]. constructor. now apply before_true.
    + simpl. inversion S as [|? ? S' H]; subst.
      constructor; [now apply IH |].
      destruct l as [|k l]; simpl.
      * constructor. now apply before_false.
      * destruct (before (nth i v 0%Q) (nth k v 0%Q)); simpl; constructor.
        -- now apply before_false.
        -- now inversion H.
Qed.

Lemma insertion_argsort_perm :
  Permutation (insertion_argsort before v) (seq 0 (List.length v)).
Proof.
  unfold insertion_argsort.
  induction (seq 0 (List.length v)) as [|i l IH]; simpl; [reflexivity |].
  rewrite insert_pos_perm. now constructor.
Qed.

Lemma insertion_argsort_sorted :
  Sorted Qle (List.map (fun i => nth i v 0%Q) (insertion_argsort before v)).
Proof.
  unfold insertion_argsort.
  induction (seq 0 (List.length v)) as [|i l IH]; simpl; [constructor |].
  now apply insert_pos_sorted.
Qed.

End InsertionArgsortSpec.

Lemma argsort_stable_spec : argsort_spec argsort_stable.
Proof.
  intros v. unfold argsort_stable. split.
  - apply insertion_argsort_perm.
  - apply insertion_argsort_sorted.
    + intros x y H. now apply Qle_bool_iff.
    + intros x y H. apply Qlt_le_weak, Qnot_le_lt.
      intros L. apply Qle_bool_iff in L. congruence.
Qed.

Lemma argsort_swapping_spec : argsort_spec argsort_swapping.
Proof.
  intros v. unfold argsort_swapping. split.
  - apply insertion_argsort_perm.
  - apply insertion_argsort_sorted.
    + intros x y H. apply Qlt_le_weak. now apply Qltb_lt.
    + intros x y H. apply Qnot_lt_le. intros L.
      apply Qltb_lt in L. congruence.
Qed.

Section SortValuesSpec.

Variable argsort : list Q -> list nat.
Hypothesis argsort_ok : argsort_spec argsort.

Lemma nargsort_desc_perm (items : list Q) :
  Permutation (nargsort_desc argsort items) (seq 0 (List.length items)).
Proof.
  unfold nargsort_desc.
  destruct (argsort_ok (rev items)) as [P _]. rewrite length_rev in P.
  set (n := List.length items) in *.
  eapply perm_trans; [symmetry; apply Permutation_rev |].
  eapply perm_trans; [apply Permutation_map; exact P |].
  pose proof (map_nth_seq (rev (seq 0 n)) 0%nat) as M.
  rewrite length_rev, length_seq in M. rewrite M.
  symmetry. apply Permutation_rev.
Qed.

Lemma nargsort_desc_values (items : list Q) :
  List.map (fun i => nth i items 0%Q) (nargsort_desc argsort items)
  = rev (List.map (fun i => nth i (rev items) 0%Q) (argsort (rev items))).
Proof.
  unfold nargsort_desc. rewrite map_rev, map_map. f_equal.
  destruct (argsort_ok (rev items)) as [P _]. rewrite length_rev in P.
  apply map_ext_in. intros i Hi.
  apply (Permutation_in _ P) in Hi. apply in_seq in Hi.
  rewrite rev_nth by (rewrite length_seq; lia).
  rewrite length_seq, seq_nth by lia.
  rewrite rev_nth by lia. reflexivity.
Qed.

Lemma sort_values_desc_perm (frame : list (pystr * Q)) :
  Permutation (sort_values_desc argsort frame) frame.
Proof.
  unfold sort_values_desc.
  pose proof (nargsort_desc_perm (List.map snd frame)) as P.
  rewrite length_map in P.
  eapply perm_trans; [apply Permutation_map; exact P |].
  now rewrite map_nth_seq.
Qed.

Lemma sort_values_desc_values (frame : list (pystr * Q)) :
  List.map snd (sort_values_desc argsort frame)
  = List.map (fun i => nth i (List.map snd frame) 0%Q)
             (nargsort_desc argsort (List.map snd frame)).
Proof.
  unfold sort_values_desc. rewrite map_map. apply map_ext. intros i.
  change 0%Q with (snd no_row). now rewrite map_nth.
Qed.

End SortValuesSpec.

Lemma StronglySorted_snoc (A : Type) (R : A -> A -> Prop) (l : list A) (x : A) :
  StronglySorted R l -> Forall (fun y => R y x) l -> StronglySorted R (l ++ [x]).
Proof.
  induction 1 as [|y l S IH F]; simpl; intros H.
  - repeat constructor.
  - inversion H; subst. constructor; [now apply IH |].
    apply Forall_app. split; [assumption | now repeat constructor].
Qed.

Lemma StronglySorted_rev_flip (A : Type) (R : A -> A -> Prop) (l : list A) :
  StronglySorted R l -> StronglySorted (fun a b => R b a) (rev l).
Proof.
  induction 1 as [|y l S IH F]; simpl; [constructor |].
  apply StronglySorted_snoc; [exact IH |].
  apply Forall_rev. exact F.
Qed.

Lemma StronglySorted_map_inv (A B : Type) (f : A -> B) (R : B -> B -> Prop)
    (l : list A) :
  StronglySorted R (List.map f l) -> StronglySorted (fun a b => R (f a) (f b)) l.
Proof.
  induction l as [|x l IH]; simpl; intros S; [constructor |].
  inversion S as [|? ? S' F]; subst. constructor; [now apply IH |].
  rewrite Forall_map in F. exact F.
Qed.

Lemma StronglySorted_app_inv (A : Type) (R : A -> A -> Prop) (l1 l2 : list A) :
  StronglySorted R (l1 ++ l2) ->
  StronglySorted R l1 /\ (forall a b, In a l1 -> In b l2 -> R a b).
Proof.
  induction l1 as [|x l1 IH]; simpl; intros S.
  - split; [constructor | contradiction].
  - inversion S as [|? ? S' F]; subst. destruct (IH S') as [S1 H].
    apply Forall_app in F. destruct F as [F1 F2]. split.
    + now constructor.
    + intros a b [<-|Ha] Hb; [| now apply H].
      rewrite Forall_forall in F2. now apply F2.
Qed.

Lemma sort_values_desc_sorted (argsort : list Q -> list nat)
    (frame : list (pystr * Q)) :
  argsort_spec argsort ->
  StronglySorted ranks_before (sort_values_desc argsort frame).
Proof.
  intros Hs.
  apply StronglySorted_map_inv
    with (f := @snd pystr Q) (R := fun x y : Q => (y <= x)%Q).
  rewrite sort_values_desc_values, nargsort_desc_values by exact Hs.
  apply StronglySorted_rev_flip with (R := Qle).
  apply Sorted_StronglySorted.
  - intros x y z. apply Qle_trans.
  - apply Hs.
Qed.

Lemma workload_df_In (data : DataFrame) (e : pystr) (t : Q) :
  In (e, t) (workload_df data) <->
  In e (List.map Assigned_Employee data) /\ t = emp_total data e.
Proof.
  unfold workload_df, groupby_agg. rewrite in_map_iff. split.
  - intros (k & [= -> <-] & H). rewrite pystr_keys_In in H. now split.
  - intros [H ->]. exists e. split; [reflexivity | now rewrite pystr_keys_In].
Qed.

Lemma workload_df_NoDup (data : DataFrame) :
  NoDup (List.map fst (workload_df data)).
Proof.
  unfold workload_df, groupby_agg. rewrite map_map. cbn [fst]. rewrite map_id.
  apply sorted_NoDup with (cmp := PyStr.compare).
  - exact compare_eq_iff.
  - apply pystr_keys_sorted.
Qed.

(** With three distinct totals the ranking does not depend on the sort. *)
Lemma workload_example (argsort : list Q -> list nat) :
  argsort_spec argsort ->
  workload_by_employee argsort 2 abc_30_50_10
  = [(lit "B", 50%Q); (lit "A", 30%Q)].
Proof.
  intros Hs. unfold workload_by_employee.
  pose proof (sort_values_desc_perm Hs (workload_df abc_30_50_10)) as P.
  pose proof (sort_values_desc_sorted (workload_df abc_30_50_10) Hs) as S.
  assert (E : workload_df abc_30_50_10
              = [(lit "A", 30%Q); (lit "B", 50%Q); (lit "C", 10%Q)]).
  { vm_compute. reflexivity. }
  rewrite E in *. clear E.
  set (ranked := sort_values_desc argsort _) in *.
  assert (N : NoDup ranked).
  { apply (Permutation_NoDup (Permutation_sym P)).
    repeat constructor; simpl; intuition discriminate. }
  pose proof (Permutation_length P) as L.
  assert (I : forall x, In x ranked ->
                x = (lit "A", 30%Q) \/ x = (lit "B", 50%Q) \/ x = (lit "C", 10%Q)).
  { intros x Hx. apply (Permutation_in _ P) in Hx. simpl in Hx.
    intuition auto. }
  destruct ranked as [|x [|y [|z [|w r]]]]; try discriminate L.
  inversion S as [|? ? S1 F1]; subst.
  inversion S1 as [|? ? S2 F2]; subst.
  inversion F1 as [|? ? Rxy F1']; subst. inversion F1' as [|? ? Rxz _]; subst.
  inversion F2 as [|? ? Ryz _]; subst.
  inversion N as [|? ? Nx N1]; subst. inversion N1 as [|? ? Ny _]; subst.
  unfold ranks_before in *.
  destruct (I x (or_introl eq_refl)) as [->|[->| ->]];
    destruct (I y (or_intror (or_introl eq_refl))) as [->|[->| ->]];
    destruct (I z (or_intror (or_intror (or_introl eq_refl)))) as [->|[->| ->]];
    try reflexivity;
    try (exfalso; apply Nx; simpl; tauto);
    try (exfalso; apply Ny; simpl; tauto);
    try (exfalso; revert Rxy; unfold Qle; simpl; lia);
    try (exfalso; revert Rxz; unfold Qle; simpl; lia);
    try (exfalso; revert Ryz; unfold Qle; simpl; lia).
Qed.




(* ================================================================== *)
(** * Further properties of the pipeline *)

(** ** Cleaning block *)


Lemma take_digits_all (digit : N -> bool) (s : pystr) :
  Forall (fun c => digit c = true) s -> Re.take_digits digit s = s.
Proof.
  induction 1 as [|c s D _ IH]; simpl; [reflexivity |].
  now rewrite D, IH.
Qed.

Lemma first_run_of_run (digit : N -> bool) (run : pystr) :
  run <> [] -> Forall (fun c => digit c = true) run ->
  Re.first_run digit run = Some run.
Proof.
  intros Hne F. destruct run as [|c run]; [congruence |].
  inversion F as [|? ? D F']; subst. simpl.
  now rewrite D, (take_digits_all digit F').
Qed.



(** X3. The identifier extracted from an employee string is its own
    identifier: extracting again from the extracted text returns it. *)
Theorem extract_employee_id_idempotent (x id : pystr) :
  extract_employee_id x = Some id -> extract_employee_id id = Some id.
Proof.
  rewrite !extract_employee_id_first_run. intros F.
  apply first_run_some in F. destruct F as (pre & post & _ & _ & NE & D & _).
  now apply first_run_of_run.
Qed.

Lemma extract_employee_id_idempotent_witness :
  extract_employee_id (lit "John_42x9") = Some (lit "42")
  /\ extract_employee_id (lit "42") = Some (lit "42").
Proof.
  assert (H : extract_employee_id (lit "John_42x9") = Some (lit "42")).
  { vm_compute. reflexivity. }
  split; [exact H |].
  exact (extract_employee_id_idempotent (lit "John_42x9") H).
Defined.

(* ------------------------------------------------------------------ *)
(** ** Sidebar options and filter *)

(** X4. The options of a multiselect, [df[col].unique()], list every value
    of the column once: no duplicates, the same values as the column, the
    first one being the value of the first row; a column without
    duplicates is returned as it is, so taking the distinct values twice
    changes nothing. *)
Theorem unique_options (col : list pystr) :
  NoDup (unique col)
  /\ (forall x, In x (unique col) <-> In x col)
  /\ hd_error (unique col) = hd_error col
  /\ (List.length (unique col) <= List.length col)%nat
  /\ (NoDup col -> unique col = col)
  /\ unique (unique col) = unique col.
Proof.
  assert (ND : forall l seen, NoDup l -> (forall x, In x l -> ~ In x seen) ->
                              unique_from seen l = l).
  { induction l as [|y l IH]; intros seen N H; simpl; [reflexivity |].
    inversion N as [|? ? Ny Nl]; subst.
    assert (M : mem y seen = false).
    { destruct (mem y seen) eqn:M; [| reflexivity].
      apply mem_In in M. exfalso. apply (H y); [now left | exact M]. }
    rewrite M. f_equal. apply IH; [exact Nl |].
    intros x Hx [<-|Hs]; [contradiction |]. apply (H x); [now right | exact Hs]. }
  split; [apply unique_from_NoDup |].
  split; [apply unique_In |].
  split; [destruct col; reflexivity |].
  split.
  { apply NoDup_incl_length; [apply unique_from_NoDup |].
    intros x Hx. now apply unique_In. }
  split.
  { intros N. apply ND; [exact N | intros x _ []]. }
  apply ND; [apply unique_from_NoDup | intros x _ []].
Qed.

(** X5. After a successful enrichment the "Delay Status" multiselect has
    at most two options, each of them "Delayed" or "On-Time". *)
Theorem delay_filter_options (raw : list RawRow) (df : DataFrame) :
  enrich raw = Ok df ->
  (forall f, In f (default_selection Delay_Flag df) ->
             f = Delayed \/ f = On_Time)
  /\ (List.length (default_selection Delay_Flag df) <= 2)%nat.
Proof.
  intros Hok.
  assert (H : forall f, In f (default_selection Delay_Flag df) ->
                        f = Delayed \/ f = On_Time).
  { intros f Hf. unfold default_selection in Hf. rewrite unique_In in Hf.
    apply in_map_iff in Hf. destruct Hf as (e & <- & He).
    apply enrich_ok_rows in Hok. subst df.
    apply in_map_iff in He. destruct He as (r & <- & _).
    simpl. unfold delay_flag_of, np_where. destruct (Cell.gt _ _); auto. }
  split; [exact H |].
  change 2%nat with (List.length [Delayed; On_Time]).
  apply NoDup_incl_length; [apply unique_from_NoDup |].
  intros f Hf. destruct (H f Hf) as [-> | ->]; simpl; auto.
Qed.

Lemma delay_filter_options_witness :
  enrich [asha_row] = Ok [enrich_row asha_row]
  /\ (List.length (default_selection Delay_Flag [enrich_row asha_row]) <= 2)%nat.
Proof.
  assert (H : enrich [asha_row] = Ok [enrich_row asha_row]) by reflexivity.
  split; [exact H |].
  exact (proj2 (@delay_filter_options _ _ H)).
Defined.

Lemma filter_subseq_impl (A : Type) (p q : A -> bool) (l : list A) :
  (forall x, In x l -> p x = true -> q x = true) ->
  subseq (filter p l) (filter q l).
Proof.
  induction l as [|x l IH]; simpl; intros H; [constructor |].
  assert (IH' : subseq (filter p l) (filter q l)).
  { apply IH. intros y Hy. apply H. now right. }
  destruct (p x) eqn:P.
  - rewrite (H x (or_introl eq_refl) P). now constructor.
  - destruct (q x); [now constructor | exact IH'].
Qed.

Lemma subseq_length (A : Type) (s l : list A) :
  subseq s l -> (List.length s <= List.length l)%nat.
Proof. induction 1; simpl; lia. Qed.

Lemma filter_filter (A : Type) (p q : A -> bool) (l : list A) :
  filter p (filter q l) = filter (fun x => q x && p x) l.
Proof.
  induction l as [|x l IH]; simpl; [reflexivity |].
  destruct (q x); simpl; [destruct (p x) |]; now rewrite IH.
Qed.

(** X6. Filtering twice is filtering once by both selections: the order of
    two filters does not matter, and filtering a filtered frame again by the
    same selection changes nothing. *)
Theorem filtered_df_compose (df : DataFrame) (ds ps fs ds' ps' fs' : list pystr) :
  filtered_df (filtered_df df ds ps fs) ds' ps' fs'
  = filter (fun r => row_selected ds ps fs r && row_selected ds' ps' fs' r) df
  /\ filtered_df (filtered_df df ds ps fs) ds' ps' fs'
     = filtered_df (filtered_df df ds' ps' fs') ds ps fs
  /\ filtered_df (filtered_df df ds ps fs) ds ps fs = filtered_df df ds ps fs.
Proof.
  rewrite !filtered_df_filter, !filter_filter. split; [reflexivity |]. split.
  - apply filter_ext. intros r. apply andb_comm.
  - apply filter_ext. intros r. now destruct (row_selected ds ps fs r).
Qed.

(** X7. The filter never returns more rows than it is given, and a larger
    selection never returns fewer: when each selection is included in
    another, the smaller result is a subsequence of the larger one. *)
Theorem filtered_df_monotone (df : DataFrame) (ds ps fs ds' ps' fs' : list pystr) :
  incl ds ds' -> incl ps ps' -> incl fs fs' ->
  subseq (filtered_df df ds ps fs) (filtered_df df ds' ps' fs')
  /\ (total_tasks (filtered_df df ds ps fs)
      <= total_tasks (filtered_df df ds' ps' fs'))%nat
  /\ (total_tasks (filtered_df df ds' ps' fs') <= total_tasks df)%nat.
Proof.
  intros Hd Hp Hf. rewrite !filtered_df_filter.
  assert (S : subseq (filter (row_selected ds ps fs) df)
                     (filter (row_selected ds' ps' fs') df)).
  { apply filter_subseq_impl. intros r _.
    rewrite !row_selected_iff. intros (A & B & C).
    repeat split; [apply Hd | apply Hp | apply Hf]; assumption. }
  split; [exact S |]. unfold total_tasks.
  split; [now apply subseq_length | apply filter_length_le].
Qed.

Lemma filtered_df_monotone_witness :
  incl [lit "IT"] [lit "IT"; lit "Ops"]
  /\ (total_tasks (filtered_df ops_it [lit "IT"] [lit "Low"] [On_Time])
      <= total_tasks (filtered_df ops_it [lit "IT"; lit "Ops"] [lit "Low"]
                        [On_Time]))%nat.
Proof.
  assert (H : incl [lit "IT"] [lit "IT"; lit "Ops"]).
  { intros x [<-|[]]. now left. }
  split; [exact H |].
  exact (proj1 (proj2 (@filtered_df_monotone ops_it _ _ _ _ _ _ H
                         (incl_refl [lit "Low"]) (incl_refl [On_Time])))).
Defined.

(* ------------------------------------------------------------------ *)
(** ** Mean, sum and rounding *)

Lemma dropna_In (l : list Cell.num) (x : Q) :
  In x (Cell.dropna l) <-> In (Some x) l.
Proof.
  induction l as [|[y|] l IH]; simpl.
  - tauto.
  - rewrite IH. split; [intros [->|H]; auto | intros [[= ->]|H]; auto].
  - rewrite IH. split; [auto | intros [H|H]; [discriminate | auto]].
Qed.

Lemma Qnat_S (n : nat) : (Qnat (S n) == Qnat n + 1)%Q.
Proof.
  unfold Qnat. rewrite Nat2Z.inj_succ. unfold Z.succ.
  rewrite inject_Z_plus. reflexivity.
Qed.

Lemma Qsum_bounds (lo hi : Q) (l : list Q) :
  Forall (fun x => (lo <= x <= hi)%Q) l ->
  (Qnat (List.length l) * lo <= Cell.Qsum l
   /\ Cell.Qsum l <= Qnat (List.length l) * hi)%Q.
Proof.
  induction 1 as [|x l [H1 H2] _ [IH1 IH2]]; simpl.
  - unfold Qnat. simpl. rewrite !Qmult_0_l. split; apply Qle_refl.
  - change (Qnat (S (List.length l)) * lo <= x + Cell.Qsum l
            /\ x + Cell.Qsum l <= Qnat (S (List.length l)) * hi)%Q.
    rewrite !Qnat_S, !Qmult_plus_distr_l, !Qmult_1_l. split.
    + rewrite (Qplus_comm x). now apply Qplus_le_compat.
    + rewrite (Qplus_comm x). now apply Qplus_le_compat.
Qed.


Lemma rint_half (y : Q) :
  (inject_Z (rint y) - y <= 1 # 2)%Q /\ (y - inject_Z (rint y) <= 1 # 2)%Q.
Proof.
  destruct y as [n d]. unfold rint. cbn [Qnum Qden].
  pose proof (Z.div_mod n (Zpos d) ltac:(lia)) as DM.
  pose proof (Z.mod_pos_bound n (Zpos d) ltac:(lia)) as MB.
  set (q := (n / Zpos d)%Z) in *. set (m := (n mod Zpos d)%Z) in *.
  assert (G : forall r : Z,
            (- Zpos d <= 2 * (r * Zpos d - n) <= Zpos d)%Z ->
            (inject_Z r - (n # d) <= 1 # 2)%Q
            /\ ((n # d) - inject_Z r <= 1 # 2)%Q).
  { intros r Hr. unfold Qle, Qminus, Qplus, Qopp, inject_Z. simpl.
    rewrite ?Pos2Z.inj_mul. clear DM MB. split; lia. }
  apply G. clear G. clearbody q m. subst n.
  destruct (2 * m ?= Zpos d)%Z eqn:C.
  - rewrite Z.compare_eq_iff in C. destruct (Z.even q); lia.
  - rewrite Z.compare_lt_iff in C. lia.
  - rewrite Z.compare_gt_iff in C. lia.
Qed.


Lemma Qsum_nonneg (l : list Q) :
  Forall (fun x => (0 <= x)%Q) l -> (0 <= Cell.Qsum l)%Q.
Proof.
  induction 1 as [|x l H _ IH]; simpl; [apply Qle_refl |].
  change (0 <= x + Cell.Qsum l)%Q.
  rewrite <- (Qplus_0_l 0). now apply Qplus_le_compat.
Qed.

Lemma sum_app (l1 l2 : list Cell.num) :
  (Cell.sum (l1 ++ l2) == Cell.sum l1 + Cell.sum l2)%Q.
Proof.
  unfold Cell.sum. induction l1 as [|[x|] l1 IH]; simpl.
  - now rewrite Qplus_0_l.
  - change (x + Cell.Qsum (Cell.dropna (l1 ++ l2))
            == x + Cell.Qsum (Cell.dropna l1) + Cell.Qsum (Cell.dropna l2))%Q.
    rewrite IH. apply Qplus_assoc.
  - exact IH.
Qed.

Lemma sum_filter_le (p : Row -> bool) (val : Row -> Cell.num) (data : DataFrame) :
  (forall r x, In r data -> val r = Some x -> (0 <= x)%Q) ->
  (0 <= Cell.sum (List.map val (filter p data))
   /\ Cell.sum (List.map val (filter p data)) <= Cell.sum (List.map val data))%Q.
Proof.
  unfold Cell.sum. induction data as [|r data IH]; intros H.
  - simpl. split; apply Qle_refl.
  - assert (IH' := IH (fun r' x Hr => H r' x (or_intror Hr))).
    destruct IH' as [I0 I1]. simpl.
    destruct (val r) as [x|] eqn:V.
    + assert (Hx : (0 <= x)%Q) by exact (H r x (or_introl eq_refl) V).
      destruct (p r); simpl; rewrite ?V; simpl.
      * change (0 <= x + Cell.Qsum (Cell.dropna (List.map val (filter p data)))
                /\ x + Cell.Qsum (Cell.dropna (List.map val (filter p data)))
                   <= x + Cell.Qsum (Cell.dropna (List.map val data)))%Q.
        split.
        -- rewrite <- (Qplus_0_l 0). now apply Qplus_le_compat.
        -- apply Qplus_le_compat; [apply Qle_refl | exact I1].
      * change (0 <= Cell.Qsum (Cell.dropna (List.map val (filter p data)))
                /\ Cell.Qsum (Cell.dropna (List.map val (filter p data)))
                   <= x + Cell.Qsum (Cell.dropna (List.map val data)))%Q.
        split; [exact I0 |].
        rewrite <- (Qplus_0_l (Cell.Qsum (Cell.dropna (List.map val (filter p data))))).
        now apply Qplus_le_compat.
    + destruct (p r); simpl; rewrite ?V; simpl; split; assumption.
Qed.


(* ------------------------------------------------------------------ *)
(** ** The four rules *)

Lemma Qlt_div_iff (x c l : Q) :
  (0 < l)%Q -> ((x < c / l)%Q <-> (x * l < c)%Q).
Proof.
  intros Hl. split.
  - intros H. apply (Qmult_lt_compat_r _ _ l Hl) in H.
    assert (E : (c / l * l == c)%Q).
    { field. intros Z. rewrite Z in Hl. exact (Qlt_irrefl _ Hl). }
    now rewrite E in H.
  - intros H. now apply Qlt_shift_div_l.
Qed.

Lemma delay_rate_gt_iff (data : DataFrame) :
  data <> [] ->
  (Cell.gt (delay_rate data) (3 # 10) = true <->
   (3 * List.length data
    < 10 * count_value (List.map Delay_Flag data) Delayed)%nat).
Proof.
  intros Hne. destruct data as [|r data]; [congruence |].
  unfold delay_rate, Cell.gt. rewrite Qltb_lt.
  set (l := List.length (r :: data)).
  set (c := count_value (List.map Delay_Flag (r :: data)) Delayed).
  assert (Hl : (0 < l)%nat) by (unfold l; simpl; lia).
  rewrite Qlt_div_iff by now apply Qnat_pos.
  clearbody l c. unfold Qlt, Qnat, Qmult. cbn [Qnum Qden inject_Z]. lia.
Qed.

Lemma delay_percentage_gt_iff (data : DataFrame) :
  data <> [] ->
  ((30 < delay_percentage data)%Q <->
   (3 * List.length data
    < 10 * count_value (List.map Delay_Flag data) Delayed)%nat).
Proof.
  intros Hne. rewrite (delay_percentage_eq Hne). unfold delayed_share.
  set (l := List.length data).
  set (c := count_value (List.map Delay_Flag data) Delayed).
  assert (Hl : (0 < l)%nat).
  { unfold l. destruct data; [congruence | simpl; lia]. }
  rewrite Qlt_div_iff by now apply Qnat_pos.
  clearbody l c. unfold Qlt, Qnat, Qmult. cbn [Qnum Qden inject_Z]. lia.
Qed.

Lemma In_insights (d e : option pystr) (before after : list pystr) (x : pystr) :
  In x (before ++ [msg_high_cost d; msg_overloaded e] ++ after) <->
  In x before \/ x = msg_high_cost d \/ x = msg_overloaded e \/ In x after.
Proof.
  rewrite !in_app_iff. simpl. intuition.
Qed.

Lemma high_priority_delay_iff (data : DataFrame) :
  (0 <? List.length (high_priority_delay data))%nat = true <->
  exists r, In r data /\ Priority_Level r = High /\ Delay_Flag r = Delayed.
Proof.
  rewrite Nat.ltb_lt. unfold high_priority_delay. split.
  - intros H.
    destruct (filter _ data) as [|r l] eqn:E; [simpl in H; lia |].
    assert (I : In r (filter (fun r => PyStr.eqb (Priority_Level r) High
                                && PyStr.eqb (Delay_Flag r) Delayed) data)).
    { rewrite E. now left. }
    apply filter_In in I. destruct I as [I B].
    apply andb_true_iff in B. destruct B as [B1 B2].
    apply eqb_eq in B1. apply eqb_eq in B2. eauto.
  - intros (r & Hr & P & F).
    assert (I : In r (filter (fun r => PyStr.eqb (Priority_Level r) High
                                && PyStr.eqb (Delay_Flag r) Delayed) data)).
    { apply filter_In. split; [exact Hr |].
      rewrite P, F, !eqb_refl. reflexivity. }
    destruct (filter _ data); [contradiction | simpl; lia].
Qed.





Lemma emp_total_duration_entries (data : DataFrame) :
  emp_total_duration data
  = List.map (fun e => (e, Some (emp_total data e)))
             (sorted_keys PyStr.compare (List.map Assigned_Employee data)).
Proof. reflexivity. Qed.

(** The employee that [idxmax] returns for the summed durations. *)
Lemma overloaded_emp_max (data : DataFrame) :
  data <> [] ->
  exists e,
    idxmax (emp_total_duration data) = Ok (Some e)
    /\ In e (List.map Assigned_Employee data)
    /\ forall e', In e' (List.map Assigned_Employee data) ->
         (emp_total data e' <= emp_total data e)%Q
         /\ ((emp_total data e' == emp_total data e)%Q -> PyStr.leb e e' = true).
Proof.
  intros Hne.
  rewrite idxmax_ok by (apply groupby_agg_not_nil; exact Hne).
  pose proof (argmax_from_spec (emp_total_duration data) None) as A.
  pose proof (pystr_keys_sorted (List.map Assigned_Employee data)) as Srt.
  assert (NE : sorted_keys PyStr.compare (List.map Assigned_Employee data) <> []).
  { apply sorted_keys_not_nil. destruct data; [congruence | discriminate]. }
  rewrite emp_total_duration_entries in *.
  set (keys := sorted_keys PyStr.compare (List.map Assigned_Employee data)) in *.
  destruct (argmax_from None _) as [[k v]|]; simpl.
  - destruct A as [[A _] | (s1 & s2 & Es & _ & F1 & F2)]; [discriminate |].
    apply map_eq_app in Es. destruct Es as (k1 & kr & Ek & E1 & Er).
    apply map_eq_cons in Er. destruct Er as (k' & k2 & -> & [= -> Ev] & E2).
    subst s1 s2 v. exists k. split; [reflexivity |].
    assert (Hk : In k keys) by (rewrite Ek; apply in_elt).
    split; [exact (proj1 (pystr_keys_In _ _) Hk) |].
    intros e' He'.
    apply (proj2 (pystr_keys_In _ _)) in He'. fold keys in He'.
    rewrite Ek in He'. rewrite Forall_forall in F1, F2.
    apply in_app_or in He'. destruct He' as [H1 | [<- | H2]].
    + assert (L : (emp_total data e' < emp_total data k)%Q).
      { apply (F1 (e', Some (emp_total data e'))); [| reflexivity].
        apply in_map_iff. now exists e'. }
      split; [now apply Qlt_le_weak |].
      intros Q. rewrite Q in L. exfalso. exact (Qlt_irrefl _ L).
    + split; [apply Qle_refl |]. intros _.
      unfold PyStr.leb. now rewrite compare_refl.
    + split.
      * apply (F2 (e', Some (emp_total data e'))); [| reflexivity].
        apply in_map_iff. now exists e'.
      * intros _. unfold PyStr.leb. rewrite Ek in Srt.
        assert (L : PyStr.compare k e' = Lt).
        { eapply sorted_split_lt with (cmp := PyStr.compare); eauto. }
        now rewrite L.
  - destruct A as [_ F]. exfalso.
    destruct keys as [|k keys']; [congruence |].
    inversion F as [|? ? H _]. discriminate H.
Qed.



(** X14. [idxmax] raises "attempt to get argmax of an empty sequence"
    exactly on the empty Series.  On a Series with at least one value that
    is not NaN it returns a label, and a label it returns carries the first
    greatest value: the values before it are smaller, the values after it
    are not greater, NaN values being skipped. *)
Theorem idxmax_spec (s : list (pystr * Cell.num)) :
  (idxmax s = Raise (ValueError "attempt to get argmax of an empty sequence")
   <-> s = [])
  /\ (forall k, idxmax s = Ok (Some k) ->
        exists v s1 s2,
          s = s1 ++ (k, Some v) :: s2
          /\ Forall (fun e => forall v', snd e = Some v' -> (v' < v)%Q) s1
          /\ Forall (fun e => forall v', snd e = Some v' -> (v' <= v)%Q) s2)
  /\ ((exists k v, In (k, Some v) s) -> exists k, idxmax s = Ok (Some k)).
Proof.
  pose proof (argmax_from_spec s None) as A.
  split; [| split].
  - destruct s; simpl; split; congruence.
  - intros k Hk. destruct s as [|x s]; [discriminate |].
    rewrite idxmax_ok in Hk by discriminate.
    destruct (argmax_from None (x :: s)) as [[k' v]|]; simpl in Hk;
      [| discriminate].
    injection Hk as ->.
    destruct A as [[A _] | (s1 & s2 & Es & _ & F1 & F2)]; [discriminate |].
    exists v, s1, s2. auto.
  - intros (k & v & Hin).
    assert (Hne : s <> []) by (intros ->; contradiction).
    rewrite (idxmax_ok Hne).
    destruct (argmax_from None s) as [[k' v']|]; simpl; [eauto |].
    destruct A as [_ F]. rewrite Forall_forall in F.
    specialize (F _ Hin). discriminate F.
Qed.

Lemma filtered_flag_In (df : DataFrame) (ds ps fs : list pystr) (r : Row) :
  In r (filtered_df df ds ps fs) -> In (Delay_Flag r) fs.
Proof.
  rewrite filtered_df_filter, filter_In, row_selected_iff. tauto.
Qed.



(* ------------------------------------------------------------------ *)
(** ** Groups partition the rows *)

Lemma list_sum_map_add (A : Type) (f g : A -> nat) (l : list A) :
  list_sum (List.map (fun x => (f x + g x)%nat) l)
  = (list_sum (List.map f l) + list_sum (List.map g l))%nat.
Proof. induction l as [|x l IH]; simpl; [reflexivity | lia]. Qed.

Lemma indicator_sum_notin (x : pystr) (ks : list pystr) :
  ~ In x ks ->
  list_sum (List.map (fun k => if PyStr.eqb k x then 1%nat else 0%nat) ks)
  = 0%nat.
Proof.
  induction ks as [|k ks IH]; simpl; intros H; [reflexivity |].
  destruct (PyStr.eqb k x) eqn:E.
  - apply eqb_eq in E. subst. exfalso. apply H. now left.
  - apply IH. intros Hx. apply H. now right.
Qed.

Lemma indicator_sum_in (x : pystr) (ks : list pystr) :
  NoDup ks -> In x ks ->
  list_sum (List.map (fun k => if PyStr.eqb k x then 1%nat else 0%nat) ks)
  = 1%nat.
Proof.
  induction 1 as [|k ks Hk N IH]; simpl; intros H; [contradiction |].
  destruct (PyStr.eqb k x) eqn:E.
  - apply eqb_eq in E. subst k. now rewrite indicator_sum_notin.
  - apply eqb_neq in E. destruct H as [H|H]; [congruence |]. now apply IH.
Qed.

Lemma count_value_cons (y : pystr) (col : list pystr) (k : pystr) :
  count_value (y :: col) k
  = ((if PyStr.eqb k y then 1 else 0) + count_value col k)%nat.
Proof. unfold count_value. simpl. now destruct (PyStr.eqb k y). Qed.

Lemma count_value_partition (col ks : list pystr) :
  NoDup ks -> incl col ks ->
  list_sum (List.map (count_value col) ks) = List.length col.
Proof.
  intros N. induction col as [|y col IH]; intros H.
  - induction ks as [|k ks IHk]; [reflexivity |]. simpl.
    inversion N; subst. now rewrite IHk.
  - rewrite (map_ext _ _ (count_value_cons y col)), list_sum_map_add.
    rewrite IH by (intros x Hx; apply H; now right).
    rewrite indicator_sum_in; [reflexivity | exact N | apply H; now left].
Qed.

Lemma group_rows_length (key : Row -> pystr) (data : DataFrame) (k : pystr) :
  List.length (group_rows key data k) = count_value (List.map key data) k.
Proof.
  unfold group_rows, count_value. induction data as [|r data IH]; simpl;
    [reflexivity |].
  rewrite (eqb_sym k (key r)). destruct (PyStr.eqb (key r) k); simpl; now rewrite IH.
Qed.


Lemma Qsum_map_add (A : Type) (f g : A -> Q) (l : list A) :
  (Cell.Qsum (List.map (fun x => f x + g x) l)
   == Cell.Qsum (List.map f l) + Cell.Qsum (List.map g l))%Q.
Proof.
  induction l as [|x l IH]; simpl; [reflexivity |].
  change (f x + g x + Cell.Qsum (List.map (fun x => f x + g x) l)
          == f x + Cell.Qsum (List.map f l) + (g x + Cell.Qsum (List.map g l)))%Q.
  rewrite IH. ring.
Qed.

Lemma Qsum_map_ext (A : Type) (f g : A -> Q) (l : list A) :
  (forall x, (f x == g x)%Q) ->
  (Cell.Qsum (List.map f l) == Cell.Qsum (List.map g l))%Q.
Proof.
  intros H. induction l as [|x l IH]; simpl; [reflexivity |].
  change (f x + Cell.Qsum (List.map f l) == g x + Cell.Qsum (List.map g l))%Q.
  now rewrite IH, H.
Qed.

Lemma Qindicator_sum_notin (x : pystr) (q : Q) (ks : list pystr) :
  ~ In x ks ->
  (Cell.Qsum (List.map (fun k => if PyStr.eqb x k then q else 0) ks) == 0)%Q.
Proof.
  induction ks as [|k ks IH]; simpl; intros H; [reflexivity |].
  destruct (PyStr.eqb x k) eqn:E.
  - apply eqb_eq in E. subst. exfalso. apply H. now left.
  - change (0 + Cell.Qsum (List.map (fun k => if PyStr.eqb x k then q else 0) ks)
            == 0)%Q.
    rewrite IH; [reflexivity |]. intros Hx. apply H. now right.
Qed.

Lemma Qindicator_sum_in (x : pystr) (q : Q) (ks : list pystr) :
  NoDup ks -> In x ks ->
  (Cell.Qsum (List.map (fun k => if PyStr.eqb x k then q else 0) ks) == q)%Q.
Proof.
  induction 1 as [|k ks Hk N IH]; simpl; intros H; [contradiction |].
  change ((if PyStr.eqb x k then q else 0)
          + Cell.Qsum (List.map (fun k => if PyStr.eqb x k then q else 0) ks)
          == q)%Q.
  destruct (PyStr.eqb x k) eqn:E.
  - apply eqb_eq in E. subst k. rewrite Qindicator_sum_notin by assumption. ring.
  - apply eqb_neq in E. destruct H as [H|H]; [congruence |].
    rewrite IH by assumption. ring.
Qed.

(** The value a cell adds to a sum. *)
Lemma sum_cons (c : Cell.num) (l : list Cell.num) :
  (Cell.sum (c :: l) == match c with Some x => x | None => 0 end + Cell.sum l)%Q.
Proof.
  unfold Cell.sum. destruct c as [x|]; simpl; [reflexivity | ring].
Qed.

Lemma group_sum_partition (key : Row -> pystr) (val : Row -> Cell.num)
    (data : DataFrame) (ks : list pystr) :
  NoDup ks -> incl (List.map key data) ks ->
  (Cell.Qsum (List.map (fun k => Cell.sum (List.map val (group_rows key data k))) ks)
   == Cell.sum (List.map val data))%Q.
Proof.
  intros N. induction data as [|r data IH]; intros H.
  - rewrite (Qsum_map_ext _ (fun _ => 0%Q)) by (intros k; reflexivity).
    clear. induction ks as [|k ks IHk]; [reflexivity |].
    cbn [List.map]. change (0 + Cell.Qsum (List.map (fun _ => 0) ks) == 0)%Q.
    rewrite IHk. reflexivity.
  - cbn [List.map]. rewrite sum_cons.
    rewrite <- IH by (intros x Hx; apply H; now right).
    rewrite <- (@Qindicator_sum_in (key r)
                  (match val r with Some x => x | None => 0 end) ks
                  N (H (key r) (or_introl eq_refl))).
    rewrite <- Qsum_map_add. apply Qsum_map_ext. intros k.
    unfold group_rows. cbn [filter].
    destruct (PyStr.eqb (key r) k); cbn [List.map].
    + apply sum_cons.
    + ring.
Qed.


(* ------------------------------------------------------------------ *)
(** ** Trend table, ranking and frequencies *)

Lemma date_keys_sorted (col : list Z) :
  StronglySorted (fun a b => (a ?= b)%Z = Lt) (sorted_keys Z.compare col).
Proof.
  apply sorted_keys_sorted.
  - exact Z.compare_eq_iff.
  - intros a b. apply Z.compare_antisym.
  - exact Z_compare_lt_trans.
Qed.

(** X18. The rows of the trend table come in increasing order of date and
    all have the same columns, in increasing order of flag; the counts of a
    row add up to the number of records of its date. *)
Theorem trend_df_rows_spec (data : DataFrame) :
  StronglySorted (fun a b => (a < b)%Z) (List.map fst (trend_df data))
  /\ (forall d row, In (d, row) (trend_df data) ->
        List.map fst row
        = sorted_keys PyStr.compare
            (List.map (fun e => snd (fst e)) (grouped_value_counts data))
        /\ StronglySorted (fun a b => PyStr.compare a b = Lt) (List.map fst row)
        /\ list_sum (List.map snd row) = List.length (rows_on data d)).
Proof.
  rewrite trend_df_rows. cbv zeta.
  set (s := grouped_value_counts data).
  set (cols := sorted_keys PyStr.compare (List.map (fun e => snd (fst e)) s)).
  split.
  - rewrite map_map. cbn [fst]. rewrite map_id.
    eapply StronglySorted_map_inv with (f := fun x : Z => x)
      (R := fun a b => (a < b)%Z).
    rewrite map_id.
    pose proof (date_keys_sorted (List.map (fun e => fst (fst e)) s)) as S.
    induction S as [|a l S IH F]; constructor; [exact IH |].
    eapply Forall_impl; [| exact F]. intros b Hb. now apply Z.compare_lt_iff.
  - intros d row H. apply in_map_iff in H. destruct H as (d' & [= -> <-] & Hd).
    rewrite date_keys_In in Hd. unfold s in Hd. rewrite trend_dates_In in Hd.
    rewrite !map_map. cbn [fst snd]. rewrite map_id.
    split; [reflexivity |]. split; [apply pystr_keys_sorted |].
    rewrite (map_ext _ (count_value (List.map Delay_Flag (rows_on data d))))
      by (intros f; unfold s; now apply fill0_pair_get).
    rewrite count_value_partition; [apply length_map | |].
    + apply sorted_NoDup with (cmp := PyStr.compare);
        [exact compare_eq_iff | apply pystr_keys_sorted].
    + intros f Hf. unfold cols. rewrite pystr_keys_In. unfold s.
      rewrite trend_flags_In. apply in_map_iff in Hf.
      destruct Hf as (r & <- & Hr). apply in_map.
      rewrite rows_on_In in Hr. tauto.
Qed.

(** X19. For any sort that meets the contract, the first row of the
    workload ranking carries the same total as the employee named by the
    third rule: the chart and the recommendation agree on the greatest
    workload. *)
Theorem workload_top_row_is_overloaded (argsort : list Q -> list nat)
    (data : DataFrame) :
  argsort_spec argsort ->
  data <> [] ->
  exists e top rest,
    idxmax (emp_total_duration data) = Ok (Some e)
    /\ sort_values_desc argsort (workload_df data) = top :: rest
    /\ (snd top == emp_total data e)%Q.
Proof.
  intros Hs Hne.
  destruct (overloaded_emp_max Hne) as (e & He & Hin & Hmax).
  pose proof (sort_values_desc_perm Hs (workload_df data)) as P.
  pose proof (sort_values_desc_sorted (workload_df data) Hs) as S.
  assert (Ie : In (e, emp_total data e) (sort_values_desc argsort (workload_df data))).
  { apply (Permutation_in _ (Permutation_sym P)).
    apply (proj2 (workload_df_In data e (emp_total data e))). now split. }
  destruct (sort_values_desc argsort (workload_df data)) as [|top rest] eqn:R;
    [contradiction |].
  exists e, top, rest. split; [exact He |]. split; [reflexivity |].
  apply Qle_antisym.
  - assert (It : In top (workload_df data)).
    { apply (Permutation_in _ P). now left. }
    destruct top as [e' t]. apply (proj1 (workload_df_In data e' t)) in It.
    destruct It as [It ->]. exact (proj1 (Hmax e' It)).
  - inversion S as [|? ? _ F]; subst. destruct Ie as [Et | Ie].
    + rewrite Et. apply Qle_refl.
    + rewrite Forall_forall in F. exact (F _ Ie).
Qed.

Lemma workload_top_row_is_overloaded_witness :
  argsort_spec argsort_stable
  /\ abc_30_50_10 <> []
  /\ exists e top rest,
       idxmax (emp_total_duration abc_30_50_10) = Ok (Some e)
       /\ sort_values_desc argsort_stable (workload_df abc_30_50_10) = top :: rest
       /\ (snd top == emp_total abc_30_50_10 e)%Q.
Proof.
  assert (H : abc_30_50_10 <> []) by discriminate.
  split; [exact argsort_stable_spec |]. split; [exact H |].
  exact (workload_top_row_is_overloaded argsort_stable_spec H).
Defined.

Lemma Qsum_map_div (A : Type) (f : A -> nat) (L : Q) (l : list A) :
  ~ (L == 0)%Q ->
  (Cell.Qsum (List.map (fun x => Qnat (f x) / L) l)
   == Qnat (list_sum (List.map f l)) / L)%Q.
Proof.
  intros HL. induction l as [|x l IH]; simpl.
  - unfold Qnat. simpl. field. exact HL.
  - change (Qnat (f x) / L + Cell.Qsum (List.map (fun x => Qnat (f x) / L) l)
            == Qnat (f x + list_sum (List.map f l)) / L)%Q.
    rewrite IH. unfold Qnat. rewrite Nat2Z.inj_add, inject_Z_plus.
    field. exact HL.
Qed.


(* ------------------------------------------------------------------ *)
(** ** More on selections, counts and matches *)



Lemma scan_concat (digit : N -> bool) (s run : pystr) :
  List.concat (Re.scan digit s run) = rev run ++ filter digit s
  /\ Forall (fun m => m <> []) (Re.scan digit s run).
Proof.
  revert run; induction s as [|c s IH]; intros run; simpl.
  - rewrite app_nil_r. destruct run as [|x run]; simpl.
    + split; [reflexivity | constructor].
    + rewrite app_nil_r. split; [reflexivity |].
      constructor; [| constructor]. intros E.
      apply (f_equal (@List.length N)) in E. rewrite length_app in E.
      simpl in E. lia.
  - destruct (digit c) eqn:D.
    + destruct (IH (c :: run)) as [E F]. split; [| exact F].
      rewrite E. simpl. now rewrite <- app_assoc.
    + destruct (IH []) as [E F]. rewrite concat_app, E. split.
      * destruct run as [|x run]; simpl; [reflexivity |].
        now rewrite app_nil_r.
      * apply Forall_app. split; [| exact F].
        destruct run as [|x run]; simpl; constructor; [| constructor].
        intros E'. apply (f_equal (@List.length N)) in E'.
        rewrite length_app in E'. simpl in E'. lia.
Qed.

(** X22. The matches of [\d+] in a string are non-empty, and put end to
    end they are the digits of the string in their order: every digit
    belongs to exactly one match and nothing else is matched.  There is no
    match exactly when the string has no digit, which is when the
    identifier is null. *)
Theorem findall_digits_spec (x : pystr) :
  List.concat (Re.findall_digits x) = filter Re.is_decimal x
  /\ Forall (fun m => m <> []) (Re.findall_digits x)
  /\ (Re.findall_digits x = [] <-> filter Re.is_decimal x = [])
  /\ (extract_employee_id x = None <-> Re.findall_digits x = []).
Proof.
  unfold Re.findall_digits, Re.findall_with.
  destruct (scan_concat Re.is_decimal x []) as [E F].
  simpl in E. split; [exact E |]. split; [exact F |]. split.
  - rewrite <- E. split; [intros ->; reflexivity |].
    intros C. destruct (Re.scan Re.is_decimal x []) as [|m l]; [reflexivity |].
    inversion F as [|? ? Hm _]; subst. simpl in C.
    apply app_eq_nil in C. destruct C as [C _]. contradiction.
  - unfold extract_employee_id, Re.findall_digits, Re.findall_with.
    destruct (Re.scan Re.is_decimal x []); split; congruence.
Qed.

(** X23. With the default selections, all the values of each column, the
    filter keeps every row, so that after a successful enrichment the
    "Total Tasks" metric is the number of loaded rows. *)
Theorem total_tasks_default_selection (raw : list RawRow) (df : DataFrame) :
  enrich raw = Ok df ->
  total_tasks (filtered_df df (default_selection Department df)
                 (default_selection Priority_Level df)
                 (default_selection Delay_Flag df))
  = List.length raw.
Proof.
  intros Hok. rewrite filtered_df_filter, filter_all.
  - apply enrich_ok_rows in Hok. subst df. apply length_map.
  - intros r Hr. apply row_selected_iff.
    unfold default_selection. rewrite !unique_In.
    repeat split; now apply in_map.
Qed.

Lemma total_tasks_default_selection_witness :
  enrich [asha_row] = Ok [enrich_row asha_row]
  /\ total_tasks
       (filtered_df [enrich_row asha_row]
          (default_selection Department [enrich_row asha_row])
          (default_selection Priority_Level [enrich_row asha_row])
          (default_selection Delay_Flag [enrich_row asha_row]))
     = 1%nat.
Proof.
  assert (H : enrich [asha_row] = Ok [enrich_row asha_row]) by reflexivity.
  split; [exact H |].
  exact (@total_tasks_default_selection [asha_row] _ H).
Defined.

(** X24. In any part of a successfully enriched frame that a filter
    returns, every record is counted either as "Delayed" or as "On-Time":
    the two counts add up to the number of records. *)
Theorem delayed_on_time_counts (raw : list RawRow) (df : DataFrame)
    (ds ps fs : list pystr) :
  enrich raw = Ok df ->
  (count_value (List.map Delay_Flag (filtered_df df ds ps fs)) Delayed
   + count_value (List.map Delay_Flag (filtered_df df ds ps fs)) On_Time
   = total_tasks (filtered_df df ds ps fs))%nat.
Proof.
  intros Hok. set (data := filtered_df df ds ps fs).
  pose proof (@count_value_partition (List.map Delay_Flag data)
                [Delayed; On_Time]) as P.
  simpl in P. unfold total_tasks. rewrite <- (length_map Delay_Flag data).
  rewrite <- P; [lia | |].
  - repeat constructor; simpl; [| tauto].
    intros [H|[]]. now apply Delayed_neq_On_Time.
  - intros f Hf. apply in_map_iff in Hf. destruct Hf as (e & <- & He).
    unfold data in He. rewrite filtered_df_filter in He.
    apply filter_In in He. destruct He as [He _].
    apply enrich_ok_rows in Hok. subst df.
    apply in_map_iff in He. destruct He as (r & <- & _).
    simpl. unfold delay_flag_of, np_where. destruct (Cell.gt _ _); auto.
Qed.

Lemma delayed_on_time_counts_witness :
  enrich [asha_row] = Ok [enrich_row asha_row]
  /\ (count_value (List.map Delay_Flag
                     (filtered_df [enrich_row asha_row] [lit "Ops"]
                        [lit "High"] [Delayed])) Delayed
      + count_value (List.map Delay_Flag
                       (filtered_df [enrich_row asha_row] [lit "Ops"]
                          [lit "High"] [Delayed])) On_Time
      = total_tasks (filtered_df [enrich_row asha_row] [lit "Ops"]
                       [lit "High"] [Delayed]))%nat.
Proof.
  assert (H : enrich [asha_row] = Ok [enrich_row asha_row]) by reflexivity.
  split; [exact H |].
  exact (@delayed_on_time_counts [asha_row] _ [lit "Ops"] [lit "High"]
           [Delayed] H).
Defined.
